(** * snap-to-search: [scripts/query_mls.py]

    A shallow embedding of the two functions of the script, [load_dotenv]
    and [main], together with the parts of the Python runtime they call
    ([str.strip], [str.split], the [in] operator, [dict.get],
    [os.environ.setdefault], [print], [bytes.decode]), and the properties
    of the script proved on that embedding.

    Conventions.
    - A Python [str] is the list of its Unicode code points ([pystr]).
    - A Python computation is a function of the process state (the
      environment variables and the text written to standard output so
      far) that either returns a value or raises, [py A].
    - Standard output is a text stream that encodes as UTF-8 with strict
      error handling and can otherwise always be written to: a write
      raises only on a text that holds a surrogate, [UnicodeEncodeError].
    - What lies outside the process is an argument: the file system as a
      function from paths to file contents, the HTTP exchange as a function
      from the request to what [urlopen] and [json.load] give back. *)

From Stdlib Require Import ZArith List String Ascii Lia Bool.
From Stdlib Require Import Floats.SpecFloat DecimalString.
From Stdlib Require Strings.Byte.
From stdpp Require Import base option list countable gmap.

Local Open Scope Z_scope.
Local Set Warnings "-register-all".

(** ** Python strings *)

Definition pystr := list Z.

(** A literal of the source, as code points. *)
Definition lit (s : string) : pystr :=
  List.map (fun a => Z.of_N (N_of_ascii a)) (list_ascii_of_string s).

(** [str.isspace] on one character: the characters [str.strip()] removes
    (CPython's [_PyUnicode_IsWhitespace]). *)
Definition isspace (c : Z) : bool :=
  ((9 <=? c) && (c <=? 13)) || ((28 <=? c) && (c <=? 32))
  || (c =? 133) || (c =? 160) || (c =? 5760)
  || ((8192 <=? c) && (c <=? 8202))
  || (c =? 8232) || (c =? 8233) || (c =? 8239) || (c =? 8287)
  || (c =? 12288).

Fixpoint lstrip (s : pystr) : pystr :=
  match s with
  | c :: t => if isspace c then lstrip t else s
  | [] => []
  end.

Definition rstrip (s : pystr) : pystr := rev (lstrip (rev s)).

(** [s.strip()] *)
Definition strip (s : pystr) : pystr := rstrip (lstrip s).

(** [s.startswith(p)] *)
Fixpoint startswith (p s : pystr) : bool :=
  match p, s with
  | [], _ => true
  | a :: p', b :: s' => (a =? b) && startswith p' s'
  | _ :: _, [] => false
  end.

(** [needle in hay] for two strings: substring containment. *)
Fixpoint contains (needle hay : pystr) : bool :=
  startswith needle hay
  || match hay with
     | [] => false
     | _ :: t => contains needle t
     end.

(** The leftmost occurrence of [sep] in [s]: what is before it and what
    is after it. *)
Fixpoint cut (sep s : pystr) : option (pystr * pystr) :=
  if startswith sep s then Some ([], drop (length sep) s)
  else match s with
       | [] => None
       | c :: t =>
           match cut sep t with
           | Some (a, b) => Some (c :: a, b)
           | None => None
           end
       end.

(** [s.split(sep, 1)] for a non-empty [sep]. *)
Definition split1 (sep s : pystr) : list pystr :=
  match cut sep s with
  | Some (a, b) => [a; b]
  | None => [s]
  end.

(** The Unicode scalar values: the code points that are no surrogate.
    A text made of them is what UTF-8 can encode. *)
Definition is_scalar (c : Z) : bool :=
  ((0 <=? c) && (c <? 0xD800)) || ((0xE000 <=? c) && (c <=? 0x10FFFF)).

(** The lines of a text, each ended by a line feed. *)
Fixpoint unlines (l : list pystr) : pystr :=
  match l with
  | [] => []
  | x :: t => x ++ 10 :: unlines t
  end.

(** ** The process state and the monad of Python computations *)

Inductive exn :=
| AttributeError
| TypeError
| ValueError
| OSError
| UnicodeEncodeError
| UnicodeDecodeError
| URLError
| JSONDecodeError.

Record world := World {
  environ : gmap pystr pystr;   (* os.environ *)
  stdout : pystr                (* the text written to sys.stdout so far *)
}.

Inductive outcome (A : Type) :=
| Ret (a : A)
| Exc (e : exn).
Arguments Ret {A} a.
Arguments Exc {A} e.

Definition py (A : Type) : Type := world -> outcome A * world.

Definition ret {A} (a : A) : py A := fun w => (Ret a, w).

Definition raise {A} (e : exn) : py A := fun w => (Exc e, w).

Definition bind {A B} (c : py A) (k : A -> py B) : py B :=
  fun w =>
    match c w with
    | (Ret a, w') => k a w'
    | (Exc e, w') => (Exc e, w')
    end.

Declare Scope py_scope.
Delimit Scope py_scope with py.
Notation "x <~ c ;; k" := (bind c (fun x => k))
  (at level 100, c at next level, right associativity) : py_scope.
Notation "c ;;; k" := (bind c (fun _ => k))
  (at level 100, right associativity) : py_scope.

(** ** [os.environ] (POSIX, UTF-8 file-system encoding) *)

(** [os.fsencode] accepts a string unless it holds a surrogate outside
    U+DC80..U+DCFF (the [surrogateescape] range). *)
Definition fs_encodable (s : pystr) : bool :=
  forallb (fun c => negb ((55296 <=? c) && (c <=? 57343))
                    || ((56448 <=? c) && (c <=? 56575))) s.

Definition has_nul (s : pystr) : bool := existsb (fun c => c =? 0) s.

(** [os.environ[key] = val]: both strings are encoded, [putenv] refuses an
    embedded NUL and a name with [=], [setenv] refuses the empty name. *)
Definition environ_setitem (key val : pystr) : py unit :=
  fun w =>
    if negb (fs_encodable key && fs_encodable val) then (Exc UnicodeEncodeError, w)
    else if has_nul key || has_nul val then (Exc ValueError, w)
    else if contains (lit "=") key then (Exc ValueError, w)
    else match key with
         | [] => (Exc OSError, w)
         | _ => (Ret tt, World (<[key := val]> (environ w)) (stdout w))
         end.

(** [os.environ.setdefault(key, val)]:
    [if key not in self: self[key] = value]. *)
Definition environ_setdefault (key val : pystr) : py unit :=
  fun w =>
    if negb (fs_encodable key) then (Exc UnicodeEncodeError, w)
    else match environ w !! key with
         | Some _ => (Ret tt, w)
         | None => environ_setitem key val w
         end.

(** [os.environ.get(key, default)] *)
Definition environ_get (key dflt : pystr) : py pystr :=
  fun w =>
    if negb (fs_encodable key) then (Exc UnicodeEncodeError, w)
    else (Ret (default dflt (environ w !! key)), w).

(** ** [load_dotenv] *)

(** What a path of the working directory leads to: nothing
    ([os.path.exists] is false); a text file with the lines it yields
    when iterated; a file whose iteration yields some lines and then
    raises ([UnicodeDecodeError] where its bytes are not UTF-8,
    [OSError] where a read fails); or something [open] fails on. *)
Inductive file :=
| Missing
| TextFile (lines : list pystr)
| Broken (lines : list pystr) (e : exn)
| Unreadable.

Definition filesystem := pystr -> file.

(** A [for] loop whose body neither breaks nor returns. *)
Fixpoint for_each {A} (l : list A) (body : A -> py unit) : py unit :=
  match l with
  | [] => ret tt
  | x :: t => bind (body x) (fun _ => for_each t body)
  end.

(** The body of the loop of [load_dotenv], for one line of the file. *)
Definition load_dotenv_line (line : pystr) : py unit :=
  let line := strip line in
  if match line with [] => true | _ => false end || startswith (lit "#") line
  then ret tt
  else if negb (contains (lit "=") line)
  then ret tt
  else match split1 (lit "=") line with
       | [key; val] => environ_setdefault key val
       | _ => raise ValueError
       end.

Definition load_dotenv (fs : filesystem) (path : pystr) : py unit :=
  match fs path with
  | Missing => ret tt
  | TextFile lines => for_each lines load_dotenv_line
  | Broken lines e => bind (for_each lines load_dotenv_line) (fun _ => raise e)
  | Unreadable => raise OSError
  end.

(** ** JSON values, as [json.load] builds them *)

(** A [dict] is the list of its items in insertion order; its keys are
    pairwise distinct. *)
Inductive json :=
| JNone
| JBool (b : bool)
| JInt (n : Z)
| JFloat (f : spec_float)
| JStr (s : pystr)
| JList (l : list json)
| JDict (d : list (pystr * json)).

Fixpoint assoc (key : pystr) (d : list (pystr * json)) : option json :=
  match d with
  | [] => None
  | (k, v) :: d' => if bool_decide (k = key) then Some v else assoc key d'
  end.

(** [o.get(key, dflt)]: only a [dict] has the method. *)
Definition get (o : json) (key : pystr) (dflt : json) : py json :=
  match o with
  | JDict d => ret (default dflt (assoc key d))
  | _ => raise AttributeError
  end.

(** [needle in o] for a string [needle]. *)
Definition py_in (needle : pystr) (o : json) : py bool :=
  match o with
  | JStr s => ret (contains needle s)
  | JList l =>
      ret (existsb (fun x => match x with
                             | JStr s => bool_decide (s = needle)
                             | _ => false
                             end) l)
  | JDict d => ret (existsb (fun kv => bool_decide (fst kv = needle)) d)
  | _ => raise TypeError
  end.

(** The items [for item in o] goes through. *)
Definition py_iter (o : json) : py (list json) :=
  match o with
  | JList l => ret l
  | JDict d => ret (List.map (fun kv => JStr (fst kv)) d)
  | JStr s => ret (List.map (fun c => JStr [c]) s)
  | _ => raise TypeError
  end.

(** ** [print] *)

(** [sys.stdout.write(s)], for a standard output that encodes as UTF-8
    with strict error handling: a text that holds a surrogate is refused
    and nothing of it is written. *)
Definition write (s : pystr) : py unit :=
  fun w =>
    if forallb is_scalar s
    then (Ret tt, World (environ w) (stdout w ++ s))
    else (Exc UnicodeEncodeError, w).

(** [repr] of a [float] and of a [str] are left to the runtime. *)
Class PyRepr := {
  float_repr : spec_float -> pystr;
  str_repr : pystr -> pystr
}.

Definition int_str (n : Z) : pystr := lit (NilEmpty.string_of_int (Z.to_int n)).

Fixpoint join (sep : pystr) (l : list pystr) : pystr :=
  match l with
  | [] => []
  | [x] => x
  | x :: t => x ++ sep ++ join sep t
  end.

Section Printing.
Context `{PyRepr}.

Fixpoint repr (o : json) : pystr :=
  match o with
  | JNone => lit "None"
  | JBool true => lit "True"
  | JBool false => lit "False"
  | JInt n => int_str n
  | JFloat f => float_repr f
  | JStr s => str_repr s
  | JList l => lit "[" ++ join (lit ", ") (List.map repr l) ++ lit "]"
  | JDict d =>
      lit "{"
      ++ join (lit ", ")
           (List.map (fun kv => let '(k, v) := kv in
                                str_repr k ++ lit ": " ++ repr v) d)
      ++ lit "}"
  end.

(** [str(o)] *)
Definition str (o : json) : pystr :=
  match o with
  | JStr s => s
  | _ => repr o
  end.

(** [print(a, b, ...)]: the [str] of each argument is written in turn,
    with a space before every argument but the first, and a line feed
    ends the call. A write that raises leaves what was written before
    it. *)
Fixpoint write_args (args : list json) : py unit :=
  match args with
  | [] => ret tt
  | a :: rest =>
      bind (write (lit " ")) (fun _ =>
      bind (write (str a)) (fun _ => write_args rest))
  end.

Definition print (args : list json) : py unit :=
  bind (match args with
        | [] => ret tt
        | a :: rest => bind (write (str a)) (fun _ => write_args rest)
        end)
       (fun _ => write [10]).
End Printing.

(** ** [bytes.decode('utf-8', errors='ignore')] *)

Definition bv (b : Byte.byte) : Z := Z.of_N (Byte.to_N b).

Definition is_cont (c : Z) : bool := (128 <=? c) && (c <=? 191).

(** An invalid start byte is dropped alone, an invalid continuation drops
    the bytes before it, a sequence cut by the end of the input is dropped
    whole. *)
Fixpoint utf8_decode_ignore (bs : list Byte.byte) : pystr :=
  match bs with
  | [] => []
  | b1 :: t1 =>
      let c1 := bv b1 in
      if c1 <? 128 then c1 :: utf8_decode_ignore t1
      else if c1 <? 194 then utf8_decode_ignore t1
      else if c1 <? 224 then
        match t1 with
        | [] => []
        | b2 :: t2 =>
            let c2 := bv b2 in
            if is_cont c2
            then (c1 * 64 + c2 - (192 * 64 + 128)) :: utf8_decode_ignore t2
            else utf8_decode_ignore t1
        end
      else if c1 <? 240 then
        match t1 with
        | [] => []
        | b2 :: t2 =>
            let c2 := bv b2 in
            if negb (is_cont c2) || (if c2 <? 160 then c1 =? 224 else c1 =? 237)
            then utf8_decode_ignore t1
            else match t2 with
                 | [] => []
                 | b3 :: t3 =>
                     let c3 := bv b3 in
                     if is_cont c3
                     then (c1 * 4096 + c2 * 64 + c3
                           - (224 * 4096 + 128 * 64 + 128))
                          :: utf8_decode_ignore t3
                     else utf8_decode_ignore t2
                 end
        end
      else if c1 <? 245 then
        match t1 with
        | [] => []
        | b2 :: t2 =>
            let c2 := bv b2 in
            if negb (is_cont c2) || (if c2 <? 144 then c1 =? 240 else c1 =? 244)
            then utf8_decode_ignore t1
            else match t2 with
                 | [] => []
                 | b3 :: t3 =>
                     let c3 := bv b3 in
                     if negb (is_cont c3) then utf8_decode_ignore t2
                     else match t3 with
                          | [] => []
                          | b4 :: t4 =>
                              let c4 := bv b4 in
                              if is_cont c4
                              then (c1 * 262144 + c2 * 4096 + c3 * 64 + c4
                                    - (240 * 262144 + 128 * 4096 + 128 * 64 + 128))
                                   :: utf8_decode_ignore t4
                              else utf8_decode_ignore t3
                          end
                 end
        end
      else utf8_decode_ignore t1
  end.

(** ** The HTTP exchange *)

Record request := Request {
  req_url : pystr;
  req_body : json;                       (* sent as json.dumps(body), UTF-8 *)
  req_headers : list (pystr * pystr);
  req_method : pystr
}.

(** A text that was decoded as ISO-8859-1, one character for each byte,
    as [http.client] decodes the status line. *)
Definition latin1 (bs : list Byte.byte) : pystr := List.map bv bs.

(** What [urlopen] followed by [json.load] gives: the parsed payload, an
    [HTTPError] with its code, the bytes of its reason phrase and the
    bytes of its body, or another exception (no connection, time-out, a
    body that is not JSON). *)
Inductive response :=
| Parsed (payload : json)
| HTTPError (code : Z) (reason : list Byte.byte) (body : list Byte.byte)
| Failed (e : exn).

(** The remote side: the request and the time-out give the response. *)
Definition network := request -> Z -> response.

(** ** [main] *)

Definition TARGET : pystr := lit "53 Bridge Street".

Definition search_body : json :=
  JDict [ (lit "latitude", JFloat (S754_finite false 6188345160261526 (-47)));
          (lit "longitude", JFloat (S754_finite true 5321230250781935 (-46)));
          (lit "radius", JInt 5);
          (lit "size", JInt 100);
          (lit "active", JBool true) ].

(** The request [main] builds: everything is fixed but the API key. *)
Definition build_request (key : pystr) : request :=
  let url := lit "https://api.realestateapi.com/v2/MLSSearch" in
  let body := search_body in
  Request url body
    [ (lit "Content-Type", lit "application/json");
      (lit "Accept", lit "application/json");
      (lit "x-api-key", key) ]
    (lit "POST").

Section Main.
Context `{PyRepr}.
Local Open Scope py_scope.

(** The loop over the records, with its [return] on the first match and
    the [print] that follows the loop. *)
Fixpoint scan (items : list json) : py unit :=
  match items with
  | [] => print [JStr (lit "not found")]
  | item :: rest =>
      l0 <~ get item (lit "listing") (JDict []) ;;
      address <~ get l0 (lit "address") (JDict []) ;;
      a <~ get address (lit "unparsedAddress") (JStr []) ;;
      hit <~ py_in TARGET a ;;
      if hit then
        listing <~ get item (lit "listing") (JDict []) ;;
        prop <~ get listing (lit "property") (JDict []) ;;
        v <~ get item (lit "listingId") JNone ;;
        print [JStr (lit "listingId"); v] ;;;
        v <~ get listing (lit "listPriceLow") JNone ;;
        print [JStr (lit "price"); v] ;;;
        v <~ get prop (lit "bedroomsTotal") JNone ;;
        print [JStr (lit "beds"); v] ;;;
        v <~ get prop (lit "bathroomsTotal") JNone ;;
        print [JStr (lit "baths"); v] ;;;
        v <~ get prop (lit "livingArea") JNone ;;
        print [JStr (lit "sqft"); v] ;;;
        v <~ get address (lit "unparsedAddress") JNone ;;
        print [JStr (lit "fullAddress"); v]
      else scan rest
  end.

Definition main (fs : filesystem) (urlopen : network) : py unit :=
  load_dotenv fs (lit ".env") ;;;
  key <~ environ_get (lit "RE_API_KEY") [] ;;
  let req := build_request key in
  match urlopen req 60 with
  | Parsed payload =>
      data <~ get payload (lit "data") (JList []) ;;
      items <~ py_iter data ;;
      scan items
  | HTTPError code reason body =>
      print [JStr (lit "HTTP error"); JInt code; JStr (latin1 reason)] ;;;
      let body := utf8_decode_ignore body in
      print [JStr body]
  | Failed e => raise e
  end.
End Main.

(** ** The data model of the script's inputs *)

(** A configuration entry: the key and the value of a line that is
    neither blank nor a comment and holds an [=]. *)
Definition config_entry (line : pystr) : option (pystr * pystr) :=
  let s := strip line in
  if startswith (lit "#") s then None else cut (lit "=") s.

(** A key and a value [os.environ] accepts. *)
Definition legal_entry (kv : pystr * pystr) : bool :=
  let '(key, val) := kv in
  fs_encodable key && fs_encodable val
  && negb (has_nul key) && negb (has_nul val)
  && negb (bool_decide (key = [])).

(** A line of a configuration file: one that is skipped, or an entry
    the environment accepts. *)
Definition well_formed_line (line : pystr) : bool :=
  match config_entry line with
  | None => true
  | Some kv => legal_entry kv
  end.

(** A nested object that may be absent: the empty object stands for it. *)
Definition sub_dict (key : pystr) (d : list (pystr * json))
  : option (list (pystr * json)) :=
  match assoc key d with
  | None => Some []
  | Some (JDict d') => Some d'
  | Some _ => None
  end.

Definition address_str (a : list (pystr * json)) : option pystr :=
  match assoc (lit "unparsedAddress") a with
  | None => Some []
  | Some (JStr s) => Some s
  | Some _ => None
  end.

(** The address string of a listing record, [listing.address.unparsedAddress],
    empty when a level is absent; [None] when the value is no record, or
    a level is present and is not an object (the leaf: not a string). *)
Definition nested_address (item : json) : option pystr :=
  match item with
  | JDict d =>
      l ← sub_dict (lit "listing") d;
      a ← sub_dict (lit "address") l;
      address_str a
  | _ => None
  end.

Definition field (key : pystr) (d : list (pystr * json)) : json :=
  default JNone (assoc key d).

(** The six attributes of a listing record the script reports. *)
Record listing_view := ListingView {
  v_listingId : json;
  v_price : json;
  v_beds : json;
  v_baths : json;
  v_sqft : json;
  v_address : pystr
}.

Definition view (item : json) : option listing_view :=
  match item with
  | JDict d =>
      l ← sub_dict (lit "listing") d;
      a ← sub_dict (lit "address") l;
      s ← address_str a;
      p ← sub_dict (lit "property") l;
      Some (ListingView (field (lit "listingId") d)
                        (field (lit "listPriceLow") l)
                        (field (lit "bedroomsTotal") p)
                        (field (lit "bathroomsTotal") p)
                        (field (lit "livingArea") p)
                        s)
  | _ => None
  end.

(** The records of a search response: its [data] array, empty when the
    attribute is absent. *)
Definition records (payload : json) : option (list json) :=
  match payload with
  | JDict p =>
      match assoc (lit "data") p with
      | None => Some []
      | Some (JList items) => Some items
      | Some _ => None
      end
  | _ => None
  end.

(** The value at the end of a path of attribute names, when every level
    is there. *)
Fixpoint lookup_path (path : list pystr) (o : json) : option json :=
  match path with
  | [] => Some o
  | key :: path' =>
      match o with
      | JDict d => v ← assoc key d; lookup_path path' v
      | _ => None
      end
  end.

(** UTF-8 as the standard defines it: the scalar values and their
    encoding, and the bytes that can start no sequence. *)
Definition byte_of (z : Z) : Byte.byte :=
  default Byte.x00 (Byte.of_N (Z.to_N z)).

Definition utf8_encode_char (c : Z) : list Byte.byte :=
  if c <? 0x80 then [byte_of c]
  else if c <? 0x800 then [byte_of (0xC0 + c / 64); byte_of (0x80 + c mod 64)]
  else if c <? 0x10000 then
    [byte_of (0xE0 + c / 4096); byte_of (0x80 + (c / 64) mod 64);
     byte_of (0x80 + c mod 64)]
  else
    [byte_of (0xF0 + c / 262144); byte_of (0x80 + (c / 4096) mod 64);
     byte_of (0x80 + (c / 64) mod 64); byte_of (0x80 + c mod 64)].

Definition utf8_encode (s : pystr) : list Byte.byte :=
  flat_map utf8_encode_char s.


(** The API key [main] sends. *)
Definition api_key (w : world) : pystr :=
  default [] (environ w !! lit "RE_API_KEY").

(** ASCII lower-casing, to speak of addresses that differ by case only. *)
Definition ascii_lower (s : pystr) : pystr :=
  List.map (fun c => if (65 <=? c) && (c <=? 90) then c + 32 else c) s.

Section Report.
Context `{PyRepr}.

(** The lines printed for a matched record, without their line feeds. *)
Definition report (v : listing_view) : list pystr :=
  [ lit "listingId " ++ str (v_listingId v);
    lit "price " ++ str (v_price v);
    lit "beds " ++ str (v_beds v);
    lit "baths " ++ str (v_baths v);
    lit "sqft " ++ str (v_sqft v);
    lit "fullAddress " ++ v_address v ].
End Report.

(** An instance to evaluate examples with; the examples print neither a
    float nor a quoted string. *)
Definition sample_repr : PyRepr :=
  {| float_repr := fun _ => lit "nan"; str_repr := fun s => lit "'" ++ s ++ lit "'" |}.

(** A process started with the API key already in its environment. *)
Definition shell_world : world :=
  World {[ lit "RE_API_KEY" := lit "from-shell" ]} [].

(** The record of the end-to-end example. *)
Definition example_record : json :=
  JDict [ (lit "listingId", JInt 42);
          (lit "listing",
           JDict [ (lit "listPriceLow", JInt 250000);
                   (lit "address",
                    JDict [ (lit "unparsedAddress",
                             JStr (lit "53 Bridge Street, Rome, NY 13440")) ]);
                   (lit "property",
                    JDict [ (lit "bedroomsTotal", JInt 3);
                            (lit "bathroomsTotal", JInt 2);
                            (lit "livingArea", JInt 1500) ]) ]) ].

Definition example_payload : json :=
  JDict [ (lit "data", JList [example_record]) ].

Definition example_view : listing_view :=
  ListingView (JInt 42) (JInt 250000) (JInt 3) (JInt 2) (JInt 1500)
    (lit "53 Bridge Street, Rome, NY 13440").

(** Further records for examples: the address in lower case, a second
    match, a record with no [listing], a match with nothing but its
    address. *)
Definition lowercase_record : json :=
  JDict [ (lit "listingId", JInt 7);
          (lit "listing",
           JDict [ (lit "address",
                    JDict [ (lit "unparsedAddress",
                             JStr (lit "53 bridge street, Rome, NY 13440")) ]) ]) ].

Definition second_match_record : json :=
  JDict [ (lit "listingId", JInt 43);
          (lit "listing",
           JDict [ (lit "address",
                    JDict [ (lit "unparsedAddress",
                             JStr (lit "53 Bridge Street, Utica, NY 13501")) ]) ]) ].

(** The address of the example, wholly in lower case. *)
Definition lower_record : json :=
  JDict [ (lit "listing",
           JDict [ (lit "address",
                    JDict [ (lit "unparsedAddress",
                             JStr (ascii_lower
                                     (lit "53 Bridge Street, Rome, NY 13440"))) ]) ]) ].

(** A record whose address holds the target in its middle. *)
Definition inner_match_record : json :=
  JDict [ (lit "listingId", JInt 44);
          (lit "listing",
           JDict [ (lit "address",
                    JDict [ (lit "unparsedAddress",
                             JStr (lit "Rear of 53 Bridge Street, Rome")) ]) ]) ].

Definition bare_record : json := JDict [ (lit "listingId", JInt 8) ].

Definition sparse_match_record : json :=
  JDict [ (lit "listing",
           JDict [ (lit "address",
                    JDict [ (lit "unparsedAddress",
                             JStr (lit "53 Bridge Street")) ]) ]) ].

Definition sparse_view : listing_view :=
  ListingView JNone JNone JNone JNone JNone (lit "53 Bridge Street").

(** A response that answers every request with the same payload, and a
    directory without a configuration file. *)
Definition always (payload : json) : network := fun _ _ => Parsed payload.

Definition no_files : filesystem := fun _ => Missing.

Definition empty_world : world := World ∅ [].

(** ** Further notions for the properties of the whole script *)

(** The keys of the entries of a configuration file, in file order. *)
Fixpoint file_keys (lines : list pystr) : list pystr :=
  match lines with
  | [] => []
  | l :: ls =>
      match config_entry l with
      | Some (k, _) => k :: file_keys ls
      | None => file_keys ls
      end
  end.

Definition is_dict (o : json) : bool :=
  match o with
  | JDict _ => true
  | _ => false
  end.


(** A record the scan passes over: its address is a string, or is
    absent, and does not hold the target. *)
Definition passed_over (r : json) : bool :=
  match nested_address r with
  | Some a => negb (contains TARGET a)
  | None => false
  end.

(** A computation that leaves the environment alone and only adds to
    the output, however it ends. *)
Definition appends {A} (c : py A) : Prop :=
  forall w,
    environ (snd (c w)) = environ w
    /\ exists out, stdout (snd (c w)) = stdout w ++ out.

(** The labels of a report, each with the space [print] puts after it. *)
Definition report_labels : list pystr :=
  [ lit "listingId "; lit "price "; lit "beds "; lit "baths "; lit "sqft ";
    lit "fullAddress " ].

(** Lines that begin with the first labels of a report, in their order. *)
Definition labelled (lines : list pystr) : Prop :=
  Forall2 (fun lab line => startswith lab line = true)
    (take (length lines) report_labels) lines.

(** How the scan of a list of records can end, with the text it has
    added to the output: [not found]; a whole report; an exception
    before anything is printed; [AttributeError] after the first two
    lines of a report; [UnicodeEncodeError] in the middle of a line of a
    report, after the label and its space. *)
Definition scan_shape (o : outcome unit) (out : pystr) : Prop :=
  (o = Ret tt /\ out = unlines [lit "not found"])
  \/ (exists lines,
        o = Ret tt /\ out = unlines lines
        /\ length lines = 6%nat /\ labelled lines)
  \/ ((o = Exc AttributeError \/ o = Exc TypeError) /\ out = [])
  \/ (exists lines,
        o = Exc AttributeError /\ out = unlines lines
        /\ length lines = 2%nat /\ labelled lines)
  \/ (exists lines lab,
        o = Exc UnicodeEncodeError /\ out = unlines lines ++ lab
        /\ report_labels !! length lines = Some lab /\ labelled lines).

Section Notions.
Context `{PyRepr}.

(** [main], started in the state [w] with the files [fs], sends the
    request [r]: the answer to [r] with a time-out of 60 is all [main]
    takes from the network, and [main] does take it, since a failure
    given as that answer is the exception [main] raises, with nothing
    printed. *)
Definition sends (fs : filesystem) (w : world) (r : request) : Prop :=
  (forall urlopen urlopen',
      urlopen' r 60 = urlopen r 60 -> main fs urlopen' w = main fs urlopen w)
  /\ (forall urlopen e,
        urlopen r 60 = Failed e ->
        fst (main fs urlopen w) = Exc e
        /\ stdout (snd (main fs urlopen w)) = stdout w).

(** A run of [print]s of a label and a value each, and what comes after
    them when none of them raises. *)
Fixpoint print_lines (pairs : list (pystr * json)) (k : py unit) : py unit :=
  match pairs with
  | [] => k
  | (lab, v) :: rest => bind (print [JStr lab; v]) (fun _ => print_lines rest k)
  end.

(** The line such a [print] writes, without its line feed. *)
Definition line_of (pv : pystr * json) : pystr := fst pv ++ 32 :: str (snd pv).
End Notions.

(** The value of a header of a request. *)
Definition header (name : pystr) (r : request) : option pystr :=
  snd <$> find (fun kv => bool_decide (fst kv = name)) (req_headers r).


(** * Properties *)

(** ** Strings *)

Lemma startswith_char c s :
  startswith [c] s = true <-> exists t, s = c :: t.
Proof.
  destruct s as [|b t]; simpl.
  - split; [discriminate | intros [t' Ht]; discriminate].
  - rewrite andb_true_r, Z.eqb_eq. split.
    + intros ->. now exists t.
    + intros [t' Ht]. now inversion Ht.
Qed.

Lemma startswith_char_false c s :
  startswith [c] s = false -> forall t, s <> c :: t.
Proof.
  intros Hf t ->. simpl in Hf. rewrite Z.eqb_refl in Hf. discriminate.
Qed.

Lemma contains_char_In c s : contains [c] s = true <-> In c s.
Proof.
  induction s as [|b t IH].
  - simpl. split; [discriminate | tauto].
  - cbn [contains]. rewrite orb_true_iff, IH, startswith_char. simpl. split.
    + intros [[t' Ht] | Hin]; [inversion Ht; tauto | tauto].
    + intros [-> | Hin]; [left; now exists t | tauto].
Qed.

Lemma contains_char_not_In c s : contains [c] s = false <-> ~ In c s.
Proof.
  rewrite <- contains_char_In. destruct (contains [c] s); split; congruence.
Qed.

Lemma startswith_app p s : startswith p s = true <-> exists t, s = p ++ t.
Proof.
  revert s. induction p as [|a p IH]; intros s.
  - simpl. split; [intros _; now exists s | reflexivity].
  - destruct s as [|b s]; simpl.
    + split; [discriminate | intros [t Ht]; discriminate].
    + rewrite andb_true_iff, Z.eqb_eq, IH. split.
      * intros [-> [t ->]]. now exists t.
      * intros [t Ht]. inversion Ht; subst. split; [reflexivity | now exists t].
Qed.

(** [contains] is exact substring containment. *)
Lemma contains_spec needle hay :
  contains needle hay = true <-> exists p q, hay = p ++ needle ++ q.
Proof.
  induction hay as [|x t IH].
  - simpl. rewrite orb_false_r, startswith_app. split.
    + intros [q Hq]. now exists [], q.
    + intros (p & q & Hpq). destruct p; [now exists q | discriminate].
  - cbn [contains]. rewrite orb_true_iff, IH, startswith_app. split.
    + intros [[q Hq] | (p & q & Hpq)].
      * now exists [], q.
      * exists (x :: p), q. now rewrite Hpq.
    + intros (p & q & Hpq). destruct p as [|y p].
      * left. now exists q.
      * right. inversion Hpq; subst. now exists p, q.
Qed.

(** [cut] at a one-character separator splits at its first occurrence. *)
Lemma cut_char_Some c s a b :
  cut [c] s = Some (a, b) -> s = a ++ c :: b /\ ~ In c a.
Proof.
  revert a b. induction s as [|x t IH]; intros a b Hc.
  - discriminate.
  - cbn [cut] in Hc. destruct (startswith [c] (x :: t)) eqn:Hs.
    + apply startswith_char in Hs as [t' Ht]. inversion Ht; subst.
      inversion Hc; subst. simpl. rewrite drop_0. split; [reflexivity | tauto].
    + destruct (cut [c] t) as [[a' b']|] eqn:Hct; [|discriminate].
      inversion Hc; subst. destruct (IH _ _ eq_refl) as [-> Hn].
      split; [reflexivity |].
      intros [Hx | Hin]; [subst x | tauto].
      simpl in Hs. rewrite Z.eqb_refl in Hs. discriminate.
Qed.

Lemma cut_char_first c a b : ~ In c a -> cut [c] (a ++ c :: b) = Some (a, b).
Proof.
  induction a as [|x a IH]; intros Hn.
  - simpl. rewrite Z.eqb_refl. simpl. now rewrite drop_0.
  - change ((x :: a) ++ c :: b) with (x :: (a ++ c :: b)). cbn [cut].
    destruct (startswith [c] (x :: a ++ c :: b)) eqn:Hs.
    + apply startswith_char in Hs as [t' Ht]. inversion Ht; subst.
      exfalso. apply Hn. now left.
    + rewrite IH; [reflexivity |]. intros Hin. apply Hn. now right.
Qed.

Lemma cut_char_None c s : cut [c] s = None <-> contains [c] s = false.
Proof.
  induction s as [|x t IH].
  - simpl. tauto.
  - cbn [cut contains]. destruct (startswith [c] (x :: t)); simpl.
    + split; discriminate.
    + rewrite <- IH. destruct (cut [c] t) as [[a b]|]; split; congruence.
Qed.

Example strip_example : strip (lit "  KEY = v  ") = lit "KEY = v".
Proof. reflexivity. Qed.

Example split1_example :
  split1 (lit "=") (lit "a=b=c") = [lit "a"; lit "b=c"]
  /\ split1 (lit "=") (lit "abc") = [lit "abc"]
  /\ split1 (lit "=") (lit "=") = [[]; []].
Proof. repeat split; reflexivity. Qed.

(** ** [os.environ.setdefault] *)

Lemma fs_encodable_legal k v :
  legal_entry (k, v) = true ->
  fs_encodable k = true /\ fs_encodable v = true
  /\ has_nul k = false /\ has_nul v = false /\ k <> [].
Proof.
  unfold legal_entry. rewrite !andb_true_iff, !negb_true_iff.
  intros [[[[Hk Hv] Hnk] Hnv] Hne]. repeat split; try assumption.
  now apply bool_decide_eq_false in Hne.
Qed.

Lemma environ_setdefault_present k v w old :
  fs_encodable k = true -> environ w !! k = Some old ->
  environ_setdefault k v w = (Ret tt, w).
Proof.
  intros Hk Hl. unfold environ_setdefault. now rewrite Hk, Hl.
Qed.

Lemma environ_setdefault_absent k v w :
  legal_entry (k, v) = true -> contains (lit "=") k = false ->
  environ w !! k = None ->
  environ_setdefault k v w
  = (Ret tt, World (<[k := v]> (environ w)) (stdout w)).
Proof.
  intros Hleg Heq Hl. apply fs_encodable_legal in Hleg as (Hk & Hv & Hnk & Hnv & Hne).
  unfold environ_setdefault, environ_setitem.
  rewrite Hk, Hv, Hl, Hnk, Hnv, Heq. simpl.
  destruct k; [congruence | reflexivity].
Qed.

(** Whatever its outcome, [setdefault] prints nothing and leaves every
    variable that is set as it is. *)
Lemma environ_setdefault_keeps k v w o w' :
  environ_setdefault k v w = (o, w') ->
  stdout w' = stdout w
  /\ forall k0 v0, environ w !! k0 = Some v0 -> environ w' !! k0 = Some v0.
Proof.
  unfold environ_setdefault, environ_setitem. intros Hr.
  destruct (negb (fs_encodable k)); [now inversion Hr |].
  destruct (environ w !! k) eqn:Hl; [now inversion Hr |].
  destruct (negb _); [now inversion Hr |].
  destruct (has_nul k || has_nul v); [now inversion Hr |].
  destruct (contains (lit "=") k); [now inversion Hr |].
  destruct k as [|c k]; inversion Hr; subst; simpl; [tauto |].
  split; [reflexivity |]. intros k0 v0 H0.
  rewrite lookup_insert_ne; [assumption | congruence].
Qed.

(** A line that begins with [=] has the empty key, which [setenv]
    refuses. *)
Example environ_setdefault_empty_key :
  environ_setdefault [] (lit "v") (World ∅ []) = (Exc OSError, World ∅ []).
Proof. reflexivity. Qed.

(** ** [load_dotenv] *)

Lemma for_each_app {A} (l1 l2 : list A) (f : A -> py unit) w :
  for_each (l1 ++ l2) f w = bind (for_each l1 f) (fun _ => for_each l2 f) w.
Proof.
  revert w. induction l1 as [|x l1 IH]; intros w.
  - reflexivity.
  - simpl. unfold bind in *. destruct (f x w) as [[[]|e] w1].
    + apply IH.
    + reflexivity.
Qed.

(** The loop body does what the data model says of a line: nothing for a
    line that is no entry, [setdefault] for an entry. *)
Lemma load_dotenv_line_entry line :
  load_dotenv_line line
  = match config_entry line with
    | None => ret tt
    | Some (key, val) => environ_setdefault key val
    end.
Proof.
  unfold load_dotenv_line, config_entry. change (lit "=") with [61].
  destruct (strip line) as [|c t]; [reflexivity |].
  cbn [orb]. destruct (startswith (lit "#") (c :: t)); [reflexivity |].
  destruct (contains [61] (c :: t)) eqn:Hc; cbn [negb].
  - unfold split1. destruct (cut [61] (c :: t)) as [[a b]|] eqn:Hcut; [reflexivity |].
    apply cut_char_None in Hcut. congruence.
  - apply cut_char_None in Hc. now rewrite Hc.
Qed.

Lemma load_dotenv_line_keeps line w o w' :
  load_dotenv_line line w = (o, w') ->
  stdout w' = stdout w
  /\ forall k v, environ w !! k = Some v -> environ w' !! k = Some v.
Proof.
  rewrite load_dotenv_line_entry. destruct (config_entry line) as [[k v]|].
  - apply environ_setdefault_keeps.
  - intros Hr. inversion Hr; subst. tauto.
Qed.

Lemma for_each_line_keeps lines w o w' :
  for_each lines load_dotenv_line w = (o, w') ->
  stdout w' = stdout w
  /\ forall k v, environ w !! k = Some v -> environ w' !! k = Some v.
Proof.
  revert w. induction lines as [|l lines IH]; intros w Hr.
  - inversion Hr; subst. tauto.
  - simpl in Hr. unfold bind in Hr.
    destruct (load_dotenv_line l w) as [[[]|e] w1] eqn:Hl;
      apply load_dotenv_line_keeps in Hl as [Hs Hk].
    + apply IH in Hr as [Hs' Hk']. split; [congruence | auto].
    + inversion Hr; subst. tauto.
Qed.

(** An entry the environment accepts is set when its key is free and
    skipped when its key is taken; the line returns in both cases. *)
Lemma load_dotenv_line_well_formed line key val w :
  well_formed_line line = true -> config_entry line = Some (key, val) ->
  exists w', load_dotenv_line line w = (Ret tt, w')
             /\ environ w' !! key = Some (default val (environ w !! key)).
Proof.
  unfold well_formed_line. intros Hwf He. rewrite He in Hwf.
  rewrite load_dotenv_line_entry, He.
  destruct (environ w !! key) as [old|] eqn:Hl.
  - exists w. split; [|assumption].
    apply fs_encodable_legal in Hwf as (Hk & _).
    now apply environ_setdefault_present with old.
  - eexists. split.
    + apply environ_setdefault_absent; [assumption | | assumption].
      unfold config_entry in He. destruct (startswith _ _); [discriminate |].
      change (lit "=") with [61] in *. apply cut_char_Some in He as [_ Hn].
      now apply contains_char_not_In.
    + simpl. apply lookup_insert_eq.
Qed.

Lemma load_dotenv_line_returns line w :
  well_formed_line line = true -> exists w', load_dotenv_line line w = (Ret tt, w').
Proof.
  intros Hwf. destruct (config_entry line) as [[k v]|] eqn:He.
  - destruct (load_dotenv_line_well_formed _ _ _ w Hwf He) as (w' & Hr & _). eauto.
  - rewrite load_dotenv_line_entry, He. now exists w.
Qed.

Lemma for_each_line_returns lines w :
  Forall (fun l => well_formed_line l = true) lines ->
  exists w', for_each lines load_dotenv_line w = (Ret tt, w').
Proof.
  intros Hall. revert w. induction Hall as [|l lines Hl _ IH]; intros w.
  - now exists w.
  - destruct (load_dotenv_line_returns l w Hl) as [w1 H1].
    destruct (IH w1) as [w' H']. exists w'.
    simpl. unfold bind. now rewrite H1.
Qed.

(** C9. When the configuration file does not exist, [load_dotenv] returns
    without an error and leaves the whole process state, the environment
    included, as it was. *)
Theorem load_dotenv_missing_file fs path w :
  fs path = Missing -> load_dotenv fs path w = (Ret tt, w).
Proof.
  intros Hf. unfold load_dotenv. now rewrite Hf.
Qed.

Lemma load_dotenv_missing_file_witness :
  load_dotenv no_files (lit ".env") shell_world = (Ret tt, shell_world).
Proof.
  apply load_dotenv_missing_file. reflexivity.
Defined.

(** C8. A line that, once stripped, is empty, begins with [#] or holds no
    [=] returns without an error and leaves the process state unchanged;
    a file with such a line loads as the file without it. *)
Theorem skipped_line_changes_nothing line w :
  strip line = [] \/ startswith (lit "#") (strip line) = true
  \/ contains (lit "=") (strip line) = false ->
  load_dotenv_line line w = (Ret tt, w)
  /\ forall pre post,
       for_each (pre ++ line :: post) load_dotenv_line w
       = for_each (pre ++ post) load_dotenv_line w.
Proof.
  intros Hskip.
  assert (Hline : forall w0, load_dotenv_line line w0 = (Ret tt, w0)).
  { intros w0. rewrite load_dotenv_line_entry. unfold config_entry.
    destruct Hskip as [He | [Hc | Hn]].
    - now rewrite He.
    - now rewrite Hc.
    - destruct (startswith _ _); [reflexivity |].
      change (lit "=") with [61] in *. apply cut_char_None in Hn. now rewrite Hn. }
  split; [apply Hline |].
  intros pre post. rewrite !for_each_app. unfold bind.
  destruct (for_each pre load_dotenv_line w) as [[[]|e] w1]; [|reflexivity].
  simpl. unfold bind. now rewrite Hline.
Qed.

Lemma skipped_line_changes_nothing_witness :
  load_dotenv_line (lit "  # RE_API_KEY=abc ") (World ∅ []) = (Ret tt, World ∅ [])
  /\ load_dotenv_line (lit "no separator here") (World ∅ []) = (Ret tt, World ∅ [])
  /\ load_dotenv_line (lit "   ") (World ∅ []) = (Ret tt, World ∅ []).
Proof.
  split; [|split].
  - apply (skipped_line_changes_nothing (lit "  # RE_API_KEY=abc ")).
    right; left; reflexivity.
  - apply (skipped_line_changes_nothing (lit "no separator here")).
    right; right; reflexivity.
  - apply (skipped_line_changes_nothing (lit "   ")).
    left; reflexivity.
Defined.

(** C6. For a line that, once stripped, is not empty, is no comment and
    holds an [=], the key handed to the environment is what stands
    before the first [=] and the value is all that follows it, further
    [=] included; this is the only way to split the line at an [=] with
    none before it. *)
Theorem key_value_split_at_first_equals line w :
  strip line <> [] ->
  startswith (lit "#") (strip line) = false ->
  contains (lit "=") (strip line) = true ->
  exists key val,
    strip line = key ++ lit "=" ++ val
    /\ contains (lit "=") key = false
    /\ load_dotenv_line line w = environ_setdefault key val w
    /\ forall key' val',
         strip line = key' ++ lit "=" ++ val' ->
         contains (lit "=") key' = false ->
         key' = key /\ val' = val.
Proof.
  intros _ Hc He. change (lit "=") with [61] in *.
  destruct (cut [61] (strip line)) as [[key val]|] eqn:Hcut.
  - exists key, val. destruct (cut_char_Some _ _ _ _ Hcut) as [Hs Hn].
    split; [exact Hs |]. split; [now apply contains_char_not_In |]. split.
    + rewrite load_dotenv_line_entry. unfold config_entry.
      change (lit "=") with [61]. now rewrite Hc, Hcut.
    + intros key' val' Hs' Hn'. apply contains_char_not_In in Hn'.
      rewrite Hs' in Hcut. simpl in Hcut.
      rewrite (cut_char_first _ _ _ Hn') in Hcut. now inversion Hcut.
  - apply cut_char_None in Hcut. congruence.
Qed.

Lemma key_value_split_at_first_equals_witness :
  exists key val,
    strip (lit " URL=https://h/?a=1&b=2 ") = key ++ lit "=" ++ val
    /\ contains (lit "=") key = false
    /\ load_dotenv_line (lit " URL=https://h/?a=1&b=2 ") (World ∅ [])
       = environ_setdefault key val (World ∅ [])
    /\ forall key' val',
         strip (lit " URL=https://h/?a=1&b=2 ") = key' ++ lit "=" ++ val' ->
         contains (lit "=") key' = false ->
         key' = key /\ val' = val.
Proof.
  apply (key_value_split_at_first_equals (lit " URL=https://h/?a=1&b=2 ")).
  - discriminate.
  - reflexivity.
  - reflexivity.
Defined.

(** C2. In a configuration file whose lines are well formed, an entry
    [KEY=VALUE] leaves [KEY] set to [VALUE] in the environment
    [load_dotenv] returns with, unless [KEY] was set when the line was
    reached, and then to the value it had; and no variable set before
    the call has changed. *)
Theorem file_never_overrides_environment fs path pre line post key val w :
  fs path = TextFile (pre ++ line :: post) ->
  Forall (fun l => well_formed_line l = true) (pre ++ line :: post) ->
  config_entry line = Some (key, val) ->
  exists w1 w',
    for_each pre load_dotenv_line w = (Ret tt, w1)
    /\ load_dotenv fs path w = (Ret tt, w')
    /\ environ w' !! key = Some (default val (environ w1 !! key))
    /\ forall k v, environ w !! k = Some v -> environ w' !! k = Some v.
Proof.
  intros Hf Hall He.
  apply Forall_app in Hall as [Hpre Hrest].
  apply Forall_cons in Hrest as [Hline Hpost].
  destruct (for_each_line_returns pre w Hpre) as [w1 H1].
  destruct (load_dotenv_line_well_formed line key val w1 Hline He) as (w2 & H2 & Hk).
  destruct (for_each_line_returns post w2 Hpost) as [w' H3].
  exists w1, w'. split; [exact H1 |].
  assert (Hrun : load_dotenv fs path w = (Ret tt, w')).
  { unfold load_dotenv. rewrite Hf, for_each_app. unfold bind. rewrite H1.
    simpl. unfold bind. now rewrite H2. }
  split; [exact Hrun |]. split.
  - apply for_each_line_keeps in H3 as [_ Hkeep]. now apply Hkeep.
  - intros k v Hkv.
    apply for_each_line_keeps in H1 as [_ K1].
    apply load_dotenv_line_keeps in H2 as [_ K2].
    apply for_each_line_keeps in H3 as [_ K3]. auto.
Qed.

Lemma file_never_overrides_environment_witness :
  exists w1 w',
    for_each [lit "# keys"; lit "RE_API_KEY=from-file"] load_dotenv_line
      shell_world = (Ret tt, w1)
    /\ load_dotenv
         (fun _ => TextFile ([lit "# keys"; lit "RE_API_KEY=from-file"]
                         ++ lit "REGION=us=east" :: [lit "REGION=other"]))
         (lit ".env") shell_world
       = (Ret tt, w')
    /\ environ w' !! lit "REGION"
       = Some (default (lit "us=east") (environ w1 !! lit "REGION"))
    /\ forall k v,
         environ shell_world !! k = Some v -> environ w' !! k = Some v.
Proof.
  apply (file_never_overrides_environment
           (fun _ => TextFile ([lit "# keys"; lit "RE_API_KEY=from-file"]
                           ++ lit "REGION=us=east" :: [lit "REGION=other"]))
           (lit ".env") [lit "# keys"; lit "RE_API_KEY=from-file"]
           (lit "REGION=us=east") [lit "REGION=other"]
           (lit "REGION") (lit "us=east") shell_world).
  - reflexivity.
  - repeat constructor.
  - reflexivity.
Defined.

(** ** [bytes.decode] with [errors='ignore'] *)

Lemma bv_byte_of z : 0 <= z < 256 -> bv (byte_of z) = z.
Proof.
  intros Hz. unfold bv, byte_of.
  destruct (Byte.of_N (Z.to_N z)) as [b|] eqn:Hb.
  - simpl. apply Byte.to_of_N in Hb. rewrite Hb. lia.
  - apply Byte.of_N_None_iff in Hb. lia.
Qed.

Ltac lia_dm := Z.div_mod_to_equations; lia.

(** Settles the comparisons of the goal that the context decides. *)
Ltac decide_tests :=
  repeat match goal with
    | |- context [?a <? ?b] =>
        first [ rewrite (proj2 (Z.ltb_lt a b)) by lia_dm
              | rewrite (proj2 (Z.ltb_ge a b)) by lia_dm ]
    | |- context [?a <=? ?b] =>
        first [ rewrite (proj2 (Z.leb_le a b)) by lia_dm
              | rewrite (proj2 (Z.leb_gt a b)) by lia_dm ]
    | |- context [?a =? ?b] =>
        first [ rewrite (proj2 (Z.eqb_eq a b)) by lia_dm
              | rewrite (proj2 (Z.eqb_neq a b)) by lia_dm ]
    end.

Lemma is_scalar_range c :
  is_scalar c = true <-> (0 <= c < 0xD800 \/ 0xE000 <= c <= 0x10FFFF).
Proof.
  unfold is_scalar. rewrite orb_true_iff, !andb_true_iff.
  rewrite Z.leb_le, Z.ltb_lt, Z.leb_le, Z.leb_le. tauto.
Qed.

(** The decoder reads back one encoded character. *)
Lemma utf8_decode_ignore_char c rest :
  is_scalar c = true ->
  utf8_decode_ignore (utf8_encode_char c ++ rest) = c :: utf8_decode_ignore rest.
Proof.
  intros Hc. apply is_scalar_range in Hc. unfold utf8_encode_char.
  destruct (c <? 128) eqn:E1; [apply Z.ltb_lt in E1 | apply Z.ltb_ge in E1].
  { cbn [app]. remember rest as t1. cbn [utf8_decode_ignore].
    rewrite bv_byte_of by lia. decide_tests. reflexivity. }
  destruct (c <? 2048) eqn:E2; [apply Z.ltb_lt in E2 | apply Z.ltb_ge in E2].
  { cbn [app]. remember (byte_of (128 + c mod 64) :: rest) as t1.
    cbn [utf8_decode_ignore]. subst t1. cbv beta iota zeta.
    rewrite !bv_byte_of by lia_dm. unfold is_cont. decide_tests.
    cbn [andb orb negb]. f_equal. lia_dm. }
  destruct (c <? 65536) eqn:E3; [apply Z.ltb_lt in E3 | apply Z.ltb_ge in E3].
  { cbn [app].
    remember (byte_of (128 + (c / 64) mod 64) :: byte_of (128 + c mod 64) :: rest)
      as t1.
    cbn [utf8_decode_ignore]. subst t1. cbv beta iota zeta.
    rewrite !bv_byte_of by lia_dm. unfold is_cont.
    destruct (128 + (c / 64) mod 64 <? 160) eqn:E4;
      [apply Z.ltb_lt in E4 | apply Z.ltb_ge in E4];
      decide_tests; cbn [andb orb negb]; f_equal; lia_dm. }
  cbn [app].
  remember (byte_of (128 + (c / 4096) mod 64) :: byte_of (128 + (c / 64) mod 64)
            :: byte_of (128 + c mod 64) :: rest) as t1.
  cbn [utf8_decode_ignore]. subst t1. cbv beta iota zeta.
  rewrite !bv_byte_of by lia_dm. unfold is_cont.
  destruct (128 + (c / 4096) mod 64 <? 144) eqn:E4;
    [apply Z.ltb_lt in E4 | apply Z.ltb_ge in E4];
    decide_tests; cbn [andb orb negb]; f_equal; lia_dm.
Qed.

Lemma utf8_decode_ignore_app s rest :
  forallb is_scalar s = true ->
  utf8_decode_ignore (utf8_encode s ++ rest) = s ++ utf8_decode_ignore rest.
Proof.
  induction s as [|c s IH]; simpl; [reflexivity |].
  rewrite andb_true_iff. intros [Hc Hs].
  unfold utf8_encode in *. rewrite <- app_assoc.
  rewrite utf8_decode_ignore_char by assumption. now rewrite IH.
Qed.

(** Well-formed UTF-8 decodes to the text it encodes. *)
Lemma utf8_decode_ignore_encode s :
  forallb is_scalar s = true -> utf8_decode_ignore (utf8_encode s) = s.
Proof.
  intros Hs. rewrite <- (app_nil_r (utf8_encode s)).
  rewrite utf8_decode_ignore_app by assumption. apply app_nil_r.
Qed.


(** The decoder on byte strings CPython was run on. *)
Example utf8_decode_ignore_euro :
  utf8_decode_ignore [Byte.xe2; Byte.x82; Byte.xac] = [8364].
Proof. reflexivity. Qed.

Example utf8_decode_ignore_bad_continuation :
  utf8_decode_ignore [Byte.xe2; Byte.x82; Byte.x41] = [65].
Proof. reflexivity. Qed.

Example utf8_decode_ignore_cut_short :
  utf8_decode_ignore [Byte.xf0; Byte.x9f; Byte.x98] = [].
Proof. reflexivity. Qed.

Example utf8_decode_ignore_surrogate :
  utf8_decode_ignore [Byte.xed; Byte.xa0; Byte.x80] = [].
Proof. reflexivity. Qed.

(** ** [bytes.decode] with [errors='ignore'], on every byte string *)

Lemma bv_range b : 0 <= bv b < 256.
Proof.
  unfold bv. pose proof (Byte.to_N_bounded b). lia.
Qed.

Lemma byte_of_bv b : byte_of (bv b) = b.
Proof.
  unfold byte_of, bv. rewrite N2Z.id, Byte.of_to_N. reflexivity.
Qed.

Lemma byte_of_eq z b : z = bv b -> byte_of z = b.
Proof. intros ->. apply byte_of_bv. Qed.

Ltac bool_facts :=
  repeat match goal with
    | H : (_ <? _) = true |- _ => apply Z.ltb_lt in H
    | H : (_ <? _) = false |- _ => apply Z.ltb_ge in H
    | H : (_ <=? _) = true |- _ => apply Z.leb_le in H
    | H : (_ <=? _) = false |- _ => apply Z.leb_gt in H
    | H : (_ =? _) = true |- _ => apply Z.eqb_eq in H
    | H : (_ =? _) = false |- _ => apply Z.eqb_neq in H
    | H : is_cont _ = true |- _ => unfold is_cont in H
    | H : andb _ _ = true |- _ => apply andb_true_iff in H as [? ?]
    | H : orb _ _ = false |- _ => apply orb_false_iff in H as [? ?]
    | H : negb _ = false |- _ => apply negb_false_iff in H
    end.

Section Steps.
Variable P : list Byte.byte -> pystr -> Prop.
Hypothesis Hnil : P [] [].
Hypothesis Hdrop :
  forall dropped t,
    dropped <> [] -> Forall (fun b => 128 <= bv b) dropped ->
    P t (utf8_decode_ignore t) -> P (dropped ++ t) (utf8_decode_ignore t).
Hypothesis Hemit :
  forall c t,
    is_scalar c = true -> P t (utf8_decode_ignore t) ->
    P (utf8_encode_char c ++ t) (c :: utf8_decode_ignore t).

Lemma utf8_decode_ignore_steps bs : P bs (utf8_decode_ignore bs).
Proof.
  remember (length bs) as n eqn:Hn. revert bs Hn.
  induction n as [n IH] using lt_wf_ind. intros bs Hn.
  assert (IH' : forall t, (length t < length bs)%nat -> P t (utf8_decode_ignore t)).
  { intros t Ht. apply (IH (length t)); [lia | reflexivity]. }
  clear IH Hn. destruct bs as [|b1 t1]; [exact Hnil |].
  pose proof (bv_range b1) as R1.
  assert (D1 : forall t, t1 = t -> 128 <= bv b1 ->
                 P (b1 :: t1) (utf8_decode_ignore t)).
  { intros t <- Hb. apply (Hdrop [b1] t1); [discriminate | repeat constructor; lia |].
    apply IH'. simpl. lia. }
  cbn [utf8_decode_ignore].
  destruct (bv b1 <? 128) eqn:E1.
  { bool_facts.
    replace (b1 :: t1) with (utf8_encode_char (bv b1) ++ t1).
    - apply Hemit; [apply is_scalar_range; lia | apply IH'; simpl; lia].
    - unfold utf8_encode_char. decide_tests. cbn [app]. now rewrite byte_of_bv. }
  destruct (bv b1 <? 194) eqn:E2; [bool_facts; now apply D1 |].
  destruct (bv b1 <? 224) eqn:E3.
  { destruct t1 as [|b2 t2].
    - bool_facts. apply (Hdrop [b1] []); [discriminate | repeat constructor; lia | exact Hnil].
    - pose proof (bv_range b2) as R2.
      destruct (is_cont (bv b2)) eqn:C2; [|bool_facts; now apply D1].
      bool_facts.
      replace (b1 :: b2 :: t2)
        with (utf8_encode_char (bv b1 * 64 + bv b2 - (192 * 64 + 128)) ++ t2).
      + apply Hemit; [apply is_scalar_range; lia | apply IH'; simpl; lia].
      + unfold utf8_encode_char. decide_tests. cbn [app].
        f_equal; [|f_equal]; apply byte_of_eq; lia_dm. }
  destruct (bv b1 <? 240) eqn:E4.
  { destruct t1 as [|b2 t2].
    - bool_facts. apply (Hdrop [b1] []); [discriminate | repeat constructor; lia | exact Hnil].
    - pose proof (bv_range b2) as R2.
      destruct (negb (is_cont (bv b2))
                || (if bv b2 <? 160 then bv b1 =? 224 else bv b1 =? 237)) eqn:C2;
        [bool_facts; now apply D1 |].
      apply orb_false_iff in C2 as [C2 C2'].
      assert (G : (bv b2 < 160 /\ bv b1 <> 224) \/ (160 <= bv b2 /\ bv b1 <> 237)).
      { destruct (bv b2 <? 160) eqn:E5; bool_facts; [left | right]; split; assumption. }
      clear C2'. bool_facts.
      destruct t2 as [|b3 t3].
      + apply (Hdrop [b1; b2] []);
          [discriminate | repeat constructor; lia | exact Hnil].
      + pose proof (bv_range b3) as R3.
        destruct (is_cont (bv b3)) eqn:C3.
        * bool_facts.
          replace (b1 :: b2 :: b3 :: t3)
            with (utf8_encode_char
                    (bv b1 * 4096 + bv b2 * 64 + bv b3
                     - (224 * 4096 + 128 * 64 + 128)) ++ t3).
          -- apply Hemit; [apply is_scalar_range; lia | apply IH'; simpl; lia].
          -- unfold utf8_encode_char. decide_tests. cbn [app].
             f_equal; [|f_equal; [|f_equal]]; apply byte_of_eq; lia_dm.
        * apply (Hdrop [b1; b2] (b3 :: t3));
            [discriminate | repeat constructor; lia | apply IH'; simpl; lia]. }
  destruct (bv b1 <? 245) eqn:E5; [|bool_facts; now apply D1].
  destruct t1 as [|b2 t2].
  - bool_facts. apply (Hdrop [b1] []); [discriminate | repeat constructor; lia | exact Hnil].
  - pose proof (bv_range b2) as R2.
    destruct (negb (is_cont (bv b2))
              || (if bv b2 <? 144 then bv b1 =? 240 else bv b1 =? 244)) eqn:C2;
      [bool_facts; now apply D1 |].
    apply orb_false_iff in C2 as [C2 C2'].
    assert (G : (bv b2 < 144 /\ bv b1 <> 240) \/ (144 <= bv b2 /\ bv b1 <> 244)).
    { destruct (bv b2 <? 144) eqn:E6; bool_facts; [left | right]; split; assumption. }
    clear C2'. bool_facts.
    destruct t2 as [|b3 t3].
    + apply (Hdrop [b1; b2] []);
        [discriminate | repeat constructor; lia | exact Hnil].
    + pose proof (bv_range b3) as R3.
      destruct (negb (is_cont (bv b3))) eqn:C3.
      * apply (Hdrop [b1; b2] (b3 :: t3));
          [discriminate | repeat constructor; lia | apply IH'; simpl; lia].
      * bool_facts. destruct t3 as [|b4 t4].
        -- apply (Hdrop [b1; b2; b3] []);
             [discriminate | repeat constructor; lia | exact Hnil].
        -- pose proof (bv_range b4) as R4.
           destruct (is_cont (bv b4)) eqn:C4.
           ++ bool_facts.
              replace (b1 :: b2 :: b3 :: b4 :: t4)
                with (utf8_encode_char
                        (bv b1 * 262144 + bv b2 * 4096 + bv b3 * 64 + bv b4
                         - (240 * 262144 + 128 * 4096 + 128 * 64 + 128)) ++ t4).
              ** apply Hemit; [apply is_scalar_range; lia | apply IH'; simpl; lia].
              ** unfold utf8_encode_char. decide_tests. cbn [app].
                 f_equal; [|f_equal; [|f_equal; [|f_equal]]];
                   apply byte_of_eq; lia_dm.
           ++ apply (Hdrop [b1; b2; b3] (b4 :: t4));
                [discriminate | repeat constructor; lia | apply IH'; simpl; lia].
Qed.
End Steps.

(** ** What standard output accepts *)





Lemma unlines_app l1 l2 : unlines (l1 ++ l2) = unlines l1 ++ unlines l2.
Proof.
  induction l1 as [|x l1 IH]; [reflexivity |].
  simpl. rewrite IH, <- app_assoc. reflexivity.
Qed.

(** ** [print] *)

Lemma write_ok s w :
  forallb is_scalar s = true ->
  write s w = (Ret tt, World (environ w) (stdout w ++ s)).
Proof. intros Hs. unfold write. now rewrite Hs. Qed.

Section PrintProperties.
Context `{PyRepr}.

Lemma write_args_ok args w :
  forallb (fun a => forallb is_scalar (str a)) args = true ->
  write_args args w
  = (Ret tt,
     World (environ w)
       (stdout w ++ concat (List.map (fun a => 32 :: str a) args))).
Proof.
  revert w. induction args as [|a args IH]; intros w Hall.
  - simpl. unfold ret. rewrite app_nil_r. now destruct w.
  - cbn [forallb] in Hall. apply andb_true_iff in Hall as [Ha Hargs].
    cbn [write_args]. unfold bind.
    rewrite (write_ok (lit " ")) by reflexivity.
    rewrite write_ok by exact Ha. rewrite (IH _ Hargs).
    cbn [environ stdout List.map concat]. rewrite <- !app_assoc. reflexivity.
Qed.

Lemma join_space x l :
  join (lit " ") (x :: l) = x ++ concat (List.map (fun y => 32 :: y) l).
Proof.
  revert x. induction l as [|y l IH]; intros x.
  - simpl. now rewrite app_nil_r.
  - change (join (lit " ") (x :: y :: l)) with (x ++ lit " " ++ join (lit " ") (y :: l)).
    rewrite IH. reflexivity.
Qed.

(** A [print] whose arguments standard output accepts writes one line:
    their [str] with a space between, and a line feed. *)
Lemma print_ok a args w :
  forallb (fun x => forallb is_scalar (str x)) (a :: args) = true ->
  print (a :: args) w
  = (Ret tt,
     World (environ w)
       (stdout w ++ unlines [join (lit " ") (List.map str (a :: args))])).
Proof.
  intros Hall. cbn [forallb] in Hall. apply andb_true_iff in Hall as [Ha Hargs].
  unfold print, bind. rewrite write_ok by exact Ha.
  rewrite (write_args_ok _ _ Hargs). rewrite write_ok by reflexivity.
  cbn [environ stdout List.map unlines]. rewrite join_space.
  rewrite List.map_map. rewrite <- !app_assoc. reflexivity.
Qed.

(** A [print] of a label and a value: the whole line, or, when the value
    is refused, the label and the space after it. *)
Lemma print_label lab v w :
  forallb is_scalar lab = true ->
  print [JStr lab; v] w
  = if forallb is_scalar (str v)
    then (Ret tt, World (environ w) (stdout w ++ unlines [lab ++ 32 :: str v]))
    else (Exc UnicodeEncodeError, World (environ w) (stdout w ++ lab ++ [32])).
Proof.
  intros Hlab. destruct (forallb is_scalar (str v)) eqn:Hv.
  - rewrite print_ok; [reflexivity |]. cbn [forallb str]. now rewrite Hlab, Hv.
  - unfold print, write_args, bind. cbn [str].
    rewrite write_ok by exact Hlab. rewrite (write_ok (lit " ")) by reflexivity.
    unfold write at 1. cbn [environ stdout]. rewrite Hv.
    rewrite <- app_assoc. reflexivity.
Qed.

End PrintProperties.

(** ** [main] *)

Lemma sub_dict_default key d l :
  sub_dict key d = Some l -> default (JDict []) (assoc key d) = JDict l.
Proof.
  unfold sub_dict. destruct (assoc key d) as [[]|]; simpl; congruence.
Qed.

Lemma address_str_default a s :
  address_str a = Some s ->
  default (JStr []) (assoc (lit "unparsedAddress") a) = JStr s.
Proof.
  unfold address_str. destruct (assoc _ a) as [[]|]; simpl; congruence.
Qed.

(** A matching address is not empty, so the attribute is there. *)
Lemma address_str_match a s :
  address_str a = Some s -> contains TARGET s = true ->
  default JNone (assoc (lit "unparsedAddress") a) = JStr s.
Proof.
  unfold address_str. destruct (assoc _ a) as [[]|]; simpl; try congruence.
  intros Hs Hc. inversion Hs; subst. discriminate.
Qed.

Lemma load_dotenv_keeps fs path w o w' :
  load_dotenv fs path w = (o, w') ->
  stdout w' = stdout w
  /\ forall k v, environ w !! k = Some v -> environ w' !! k = Some v.
Proof.
  unfold load_dotenv. destruct (fs path) as [|lines|lines e|].
  - intros Hr. inversion Hr; subst. tauto.
  - apply for_each_line_keeps.
  - unfold bind.
    destruct (for_each lines load_dotenv_line w) as [[[]|e'] w1] eqn:Hl;
      intros Hr; inversion Hr; subst; exact (for_each_line_keeps _ _ _ _ Hl).
  - intros Hr. inversion Hr; subst. tauto.
Qed.

Section MainProperties.
Context `{PyRepr}.

(** A record whose address does not hold the target is passed over:
    nothing is printed and the scan goes on. *)
Lemma scan_skip item a rest w :
  nested_address item = Some a -> contains TARGET a = false ->
  scan (item :: rest) w = scan rest w.
Proof.
  intros Ha Hc. destruct item as [| | | | |?|d]; try discriminate.
  simpl in Ha.
  destruct (sub_dict (lit "listing") d) as [l|] eqn:Hl; [|discriminate].
  simpl in Ha.
  destruct (sub_dict (lit "address") l) as [ad|] eqn:Had; [|discriminate].
  simpl in Ha.
  cbn [scan]. unfold bind, get, ret.
  rewrite (sub_dict_default _ _ _ Hl), (sub_dict_default _ _ _ Had),
    (address_str_default _ _ Ha).
  unfold py_in, ret. now rewrite Hc.
Qed.

Lemma view_nested_address item v :
  view item = Some v -> nested_address item = Some (v_address v).
Proof.
  destruct item as [| | | | |?|d]; try discriminate. simpl.
  destruct (sub_dict (lit "listing") d) as [l|]; [|discriminate]. simpl.
  destruct (sub_dict (lit "address") l) as [ad|]; [|discriminate]. simpl.
  destruct (address_str ad) as [s|]; [|discriminate]. simpl.
  destruct (sub_dict (lit "property") l) as [p|]; [|discriminate]. simpl.
  intros Hv. now inversion Hv.
Qed.

(** What standard output must accept for a report to be printed. *)
Lemma report_is_scalar v :
  forallb (forallb is_scalar) (report v) = true ->
  forallb is_scalar (str (v_listingId v)) = true
  /\ forallb is_scalar (str (v_price v)) = true
  /\ forallb is_scalar (str (v_beds v)) = true
  /\ forallb is_scalar (str (v_baths v)) = true
  /\ forallb is_scalar (str (v_sqft v)) = true
  /\ forallb is_scalar (v_address v) = true.
Proof.
  unfold report. cbn [forallb]. rewrite !andb_true_iff, !forallb_app, !andb_true_iff.
  tauto.
Qed.

(** A record whose address holds the target is reported, and the scan
    ends there whatever follows. *)
Lemma scan_report item v rest w :
  view item = Some v -> contains TARGET (v_address v) = true ->
  forallb (forallb is_scalar) (report v) = true ->
  scan (item :: rest) w
  = (Ret tt, World (environ w) (stdout w ++ unlines (report v))).
Proof.
  intros Hv Hc Hok.
  destruct (report_is_scalar v Hok) as (O1 & O2 & O3 & O4 & O5 & O6).
  destruct item as [| | | | |?|d]; try discriminate.
  simpl in Hv.
  destruct (sub_dict (lit "listing") d) as [l|] eqn:Hl; [|discriminate].
  simpl in Hv.
  destruct (sub_dict (lit "address") l) as [ad|] eqn:Had; [|discriminate].
  simpl in Hv.
  destruct (address_str ad) as [s|] eqn:Hs; [|discriminate].
  simpl in Hv.
  destruct (sub_dict (lit "property") l) as [p|] eqn:Hp; [|discriminate].
  simpl in Hv. inversion Hv; subst v; clear Hv.
  cbn [v_listingId v_price v_beds v_baths v_sqft v_address] in *.
  cbn [scan]. unfold bind, get, ret.
  rewrite (sub_dict_default _ _ _ Hl), (sub_dict_default _ _ _ Had),
    (address_str_default _ _ Hs).
  unfold py_in, ret. rewrite Hc.
  rewrite (sub_dict_default _ _ _ Hp), (address_str_match _ _ Hs Hc).
  unfold field in *.
  rewrite !print_label by reflexivity. cbn [str] in *.
  rewrite O1. cbv iota. rewrite !print_label by reflexivity. rewrite O2. cbv iota.
  rewrite !print_label by reflexivity. rewrite O3. cbv iota.
  rewrite !print_label by reflexivity. rewrite O4. cbv iota.
  rewrite !print_label by reflexivity. rewrite O5. cbv iota.
  rewrite !print_label by reflexivity. cbn [str]. rewrite O6.
  unfold report. cbn [environ stdout v_listingId v_price v_beds v_baths v_sqft
    v_address unlines].
  repeat (rewrite <- app_assoc; cbn [app]). reflexivity.
Qed.


Lemma print_not_found w :
  print [JStr (lit "not found")] w
  = (Ret tt, World (environ w) (stdout w ++ unlines [lit "not found"])).
Proof. now rewrite print_ok. Qed.

Lemma scan_no_match items w :
  Forall (fun r => exists a, nested_address r = Some a
                             /\ contains TARGET a = false) items ->
  scan items w
  = (Ret tt, World (environ w) (stdout w ++ unlines [lit "not found"])).
Proof.
  induction 1 as [|r items (a & Ha & Hc) _ IH].
  - apply print_not_found.
  - now rewrite (scan_skip r a items w Ha Hc).
Qed.

Lemma scan_first_match pre item post v w :
  Forall (fun r => exists a, nested_address r = Some a
                             /\ contains TARGET a = false) pre ->
  view item = Some v -> contains TARGET (v_address v) = true ->
  forallb (forallb is_scalar) (report v) = true ->
  scan (pre ++ item :: post) w
  = (Ret tt, World (environ w) (stdout w ++ unlines (report v))).
Proof.
  intros Hpre Hv Hc Hok. induction Hpre as [|r pre (a & Ha & Hn) _ IH].
  - now apply scan_report.
  - change (scan (r :: pre ++ item :: post) w
            = (Ret tt, World (environ w) (stdout w ++ unlines (report v)))).
    now rewrite (scan_skip r a (pre ++ item :: post) w Ha Hn).
Qed.

(** On the success path [main] is the scan of the records, run in the
    state [load_dotenv] left. *)
Lemma main_parsed fs urlopen w w1 payload items :
  load_dotenv fs (lit ".env") w = (Ret tt, w1) ->
  urlopen (build_request (api_key w1)) 60 = Parsed payload ->
  records payload = Some items ->
  main fs urlopen w = scan items w1.
Proof.
  intros Hl Hn Hr. unfold main, bind. rewrite Hl. unfold environ_get.
  change (negb (fs_encodable (lit "RE_API_KEY"))) with false. cbv iota.
  match goal with
  | |- context [urlopen ?r 60] =>
      change (urlopen r 60) with (urlopen (build_request (api_key w1)) 60)
  end.
  rewrite Hn.
  destruct payload as [| | | | |?|p]; try discriminate.
  unfold get, ret. simpl in Hr.
  destruct (assoc (lit "data") p) as [[]|]; try discriminate;
    inversion Hr; subst; reflexivity.
Qed.

Lemma main_first_match fs urlopen w w1 payload pre item post v :
  load_dotenv fs (lit ".env") w = (Ret tt, w1) ->
  urlopen (build_request (api_key w1)) 60 = Parsed payload ->
  records payload = Some (pre ++ item :: post) ->
  Forall (fun r => exists a, nested_address r = Some a
                             /\ contains TARGET a = false) pre ->
  view item = Some v -> contains TARGET (v_address v) = true ->
  forallb (forallb is_scalar) (report v) = true ->
  main fs urlopen w
  = (Ret tt, World (environ w1) (stdout w ++ unlines (report v))).
Proof.
  intros Hl Hn Hr Hpre Hv Hc Hok.
  rewrite (main_parsed _ _ _ _ _ _ Hl Hn Hr).
  rewrite (scan_first_match _ _ _ _ _ Hpre Hv Hc Hok).
  apply load_dotenv_keeps in Hl as [-> _]. reflexivity.
Qed.

Lemma main_no_match fs urlopen w w1 payload items :
  load_dotenv fs (lit ".env") w = (Ret tt, w1) ->
  urlopen (build_request (api_key w1)) 60 = Parsed payload ->
  records payload = Some items ->
  Forall (fun r => exists a, nested_address r = Some a
                             /\ contains TARGET a = false) items ->
  main fs urlopen w
  = (Ret tt, World (environ w1) (stdout w ++ unlines [lit "not found"])).
Proof.
  intros Hl Hn Hr Hall.
  rewrite (main_parsed _ _ _ _ _ _ Hl Hn Hr), (scan_no_match _ _ Hall).
  apply load_dotenv_keeps in Hl as [-> _]. reflexivity.
Qed.

Lemma view_inv item v :
  view item = Some v ->
  exists d l ad p,
    item = JDict d
    /\ sub_dict (lit "listing") d = Some l
    /\ sub_dict (lit "address") l = Some ad
    /\ address_str ad = Some (v_address v)
    /\ sub_dict (lit "property") l = Some p
    /\ v_listingId v = field (lit "listingId") d
    /\ v_price v = field (lit "listPriceLow") l
    /\ v_beds v = field (lit "bedroomsTotal") p
    /\ v_baths v = field (lit "bathroomsTotal") p
    /\ v_sqft v = field (lit "livingArea") p.
Proof.
  destruct item as [| | | | |?|d]; try discriminate. simpl.
  destruct (sub_dict (lit "listing") d) as [l|] eqn:Hl; [|discriminate]. simpl.
  destruct (sub_dict (lit "address") l) as [ad|] eqn:Had; [|discriminate]. simpl.
  destruct (address_str ad) as [s|] eqn:Hs; [|discriminate]. simpl.
  destruct (sub_dict (lit "property") l) as [p|] eqn:Hp; [|discriminate]. simpl.
  intros Hv. inversion Hv; subst v. exists d, l, ad, p. now repeat split.
Qed.

Lemma lookup_path_sub key k2 path d l :
  sub_dict key d = Some l ->
  lookup_path (key :: k2 :: path) (JDict d) = None ->
  lookup_path (k2 :: path) (JDict l) = None.
Proof.
  unfold sub_dict. cbn [lookup_path].
  destruct (assoc key d) as [[]|]; simpl; intros Hs Hp;
    inversion Hs; subst; simpl; auto.
Qed.

Lemma lookup_path_field key d :
  lookup_path [key] (JDict d) = None -> field key d = JNone.
Proof.
  unfold field. cbn [lookup_path]. destruct (assoc key d); [discriminate | reflexivity].
Qed.

Lemma lookup_path_address ad s :
  address_str ad = Some s ->
  lookup_path [lit "unparsedAddress"] (JDict ad) = None -> s = [].
Proof.
  unfold address_str. cbn [lookup_path].
  destruct (assoc (lit "unparsedAddress") ad) as [[]|]; simpl; congruence.
Qed.

(** A text of lines that hold no line feed has as many line feeds as
    lines. *)
Lemma unlines_line_feeds lines :
  Forall (fun l => ~ In 10 l) lines ->
  count_occ Z.eq_dec (unlines lines) 10 = length lines.
Proof.
  induction 1 as [|x lines Hx _ IH]; [reflexivity |].
  cbn [unlines length].
  rewrite count_occ_app, (proj1 (count_occ_not_In Z.eq_dec x 10) Hx).
  cbn [count_occ]. destruct (Z.eq_dec 10 10); [now rewrite IH | congruence].
Qed.

(** The lower-case form of a text holds no capital letter, so it does
    not hold the target. *)
Lemma ascii_lower_no_target a p q : ascii_lower a <> p ++ TARGET ++ q.
Proof.
  intros Heq.
  assert (Hin : In 66 (ascii_lower a)).
  { rewrite Heq. apply in_or_app. right. apply in_or_app. left.
    vm_compute. tauto. }
  unfold ascii_lower in Hin. apply in_map_iff in Hin as (c & Hc & _).
  destruct ((65 <=? c) && (c <=? 90)) eqn:E.
  - lia.
  - subst c. discriminate.
Qed.

Lemma contains_false_spec needle hay :
  contains needle hay = false <-> ~ exists p q, hay = p ++ needle ++ q.
Proof.
  rewrite <- contains_spec. destruct (contains needle hay); split; congruence.
Qed.


(** C1, as amended. When the records of the response before the first
    one whose address holds ["53 Bridge Street"] are records whose
    address does not, that record has the shape of a listing, and
    standard output accepts the values to print (they hold no lone
    surrogate), [main] prints six lines, the attributes [listingId],
    [price], [beds], [baths], [sqft] and [fullAddress] of that record,
    each as the label, a space and the value, and returns; the records
    after it have no part in the result. The six texts are six lines of
    output as long as no value holds a line feed. *)
Theorem first_match_is_reported fs urlopen w w1 payload pre item post v :
  load_dotenv fs (lit ".env") w = (Ret tt, w1) ->
  urlopen (build_request (api_key w1)) 60 = Parsed payload ->
  records payload = Some (pre ++ item :: post) ->
  Forall (fun r => exists a, nested_address r = Some a
                             /\ contains TARGET a = false) pre ->
  view item = Some v -> contains TARGET (v_address v) = true ->
  forallb (forallb is_scalar) (report v) = true ->
  main fs urlopen w
  = (Ret tt, World (environ w1) (stdout w ++ unlines (report v)))
  /\ length (report v) = 6%nat
  /\ (Forall (fun l => ~ In 10 l) (report v) ->
      count_occ Z.eq_dec (unlines (report v)) 10 = 6%nat).
Proof.
  intros Hl Hn Hr Hpre Hv Hc Hok. split; [|split; [reflexivity |]].
  - now apply (main_first_match fs urlopen w w1 payload pre item post v).
  - intros Hlf. now rewrite (unlines_line_feeds _ Hlf).
Qed.

(** C4. For the payload of the end-to-end example the output of [main]
    is the six lines of the example, in their order. *)
Theorem end_to_end_example fs urlopen w w1 :
  load_dotenv fs (lit ".env") w = (Ret tt, w1) ->
  urlopen (build_request (api_key w1)) 60 = Parsed example_payload ->
  main fs urlopen w
  = (Ret tt,
     World (environ w1)
       (stdout w ++ unlines [ lit "listingId 42";
                              lit "price 250000";
                              lit "beds 3";
                              lit "baths 2";
                              lit "sqft 1500";
                              lit "fullAddress 53 Bridge Street, Rome, NY 13440" ])).
Proof.
  intros Hl Hn.
  apply (main_first_match fs urlopen w w1 example_payload [] example_record []
           (ListingView (JInt 42) (JInt 250000) (JInt 3) (JInt 2) (JInt 1500)
              (lit "53 Bridge Street, Rome, NY 13440")));
    try assumption; try reflexivity. constructor.
Qed.

(** C5. When no record of the response has an address holding
    ["53 Bridge Street"], [main] prints the one line [not found] and
    returns. *)
Theorem no_match_prints_not_found fs urlopen w w1 payload items :
  load_dotenv fs (lit ".env") w = (Ret tt, w1) ->
  urlopen (build_request (api_key w1)) 60 = Parsed payload ->
  records payload = Some items ->
  Forall (fun r => exists a, nested_address r = Some a
                             /\ contains TARGET a = false) items ->
  main fs urlopen w
  = (Ret tt, World (environ w1) (stdout w ++ unlines [lit "not found"])).
Proof.
  apply main_no_match.
Qed.

(** C10. The match of [main] is exact substring containment, case
    included. A record is reported when the code points of
    ["53 Bridge Street"] stand in its address in a row and as they are,
    with anything before and after them; when they stand in no record's
    address, [main] prints [not found]; and the lower-case form of an
    address never matches, so that a response whose addresses are in
    lower case, as ["53 bridge street, Rome, NY 13440"], gives
    [not found]. *)
Theorem match_is_case_sensitive fs urlopen w w1 payload :
  load_dotenv fs (lit ".env") w = (Ret tt, w1) ->
  urlopen (build_request (api_key w1)) 60 = Parsed payload ->
  (forall pre item post v p q,
      records payload = Some (pre ++ item :: post) ->
      Forall (fun r => exists a,
                  nested_address r = Some a
                  /\ ~ exists p' q', a = p' ++ TARGET ++ q') pre ->
      view item = Some v ->
      v_address v = p ++ TARGET ++ q ->
      forallb (forallb is_scalar) (report v) = true ->
      main fs urlopen w
      = (Ret tt, World (environ w1) (stdout w ++ unlines (report v))))
  /\ (forall items,
        records payload = Some items ->
        Forall (fun r => exists a,
                    nested_address r = Some a
                    /\ ~ exists p q, a = p ++ TARGET ++ q) items ->
        main fs urlopen w
        = (Ret tt, World (environ w1) (stdout w ++ unlines [lit "not found"])))
  /\ (forall items,
        records payload = Some items ->
        Forall (fun r => exists a, nested_address r = Some (ascii_lower a)) items ->
        main fs urlopen w
        = (Ret tt, World (environ w1) (stdout w ++ unlines [lit "not found"]))).
Proof.
  intros Hl Hn. split; [|split].
  - intros pre item post v p q Hr Hpre Hv Ha Hok.
    apply (main_first_match fs urlopen w w1 payload pre item post v);
      try assumption.
    + eapply Forall_impl; [exact Hpre |].
      intros r (a & Hra & Hno). exists a. split; [exact Hra |].
      now apply contains_false_spec.
    + apply contains_spec. now exists p, q.
  - intros items Hr Hall.
    apply (main_no_match fs urlopen w w1 payload items Hl Hn Hr).
    eapply Forall_impl; [exact Hall |].
    intros r (a & Hra & Hno). exists a. split; [exact Hra |].
    now apply contains_false_spec.
  - intros items Hr Hall.
    apply (main_no_match fs urlopen w w1 payload items Hl Hn Hr).
    eapply Forall_impl; [exact Hall |].
    intros r (a & Hra). exists (ascii_lower a). split; [exact Hra |].
    apply contains_false_spec. intros (p & q & Hpq).
    exact (ascii_lower_no_target a p q Hpq).
Qed.

(** C7. In a record that has the shape of a listing an absent attribute
    raises nothing. The record is passed over when its address does not
    hold the target, and an address absent at any level counts as the
    empty string, so that the record is passed over. When the address
    holds the target the record is reported, as long as standard output
    accepts the values that are there; an absent [listingId],
    [listPriceLow], [bedroomsTotal], [bathroomsTotal] or [livingArea]
    is printed as [None], which standard output always accepts. *)
Theorem absent_fields_are_not_errors item v rest w :
  view item = Some v ->
  (contains TARGET (v_address v) = false ->
   scan (item :: rest) w = scan rest w)
  /\ (contains TARGET (v_address v) = true ->
      forallb (forallb is_scalar) (report v) = true ->
      scan (item :: rest) w
      = (Ret tt, World (environ w) (stdout w ++ unlines (report v))))
  /\ (lookup_path [lit "listing"; lit "address"; lit "unparsedAddress"] item = None ->
      v_address v = [] /\ scan (item :: rest) w = scan rest w)
  /\ (lookup_path [lit "listingId"] item = None ->
      report v !! 0%nat = Some (lit "listingId None"))
  /\ (lookup_path [lit "listing"; lit "listPriceLow"] item = None ->
      report v !! 1%nat = Some (lit "price None"))
  /\ (lookup_path [lit "listing"; lit "property"; lit "bedroomsTotal"] item = None ->
      report v !! 2%nat = Some (lit "beds None"))
  /\ (lookup_path [lit "listing"; lit "property"; lit "bathroomsTotal"] item = None ->
      report v !! 3%nat = Some (lit "baths None"))
  /\ (lookup_path [lit "listing"; lit "property"; lit "livingArea"] item = None ->
      report v !! 4%nat = Some (lit "sqft None"))
  /\ forallb (forallb is_scalar)
       [ lit "listingId None"; lit "price None"; lit "beds None";
         lit "baths None"; lit "sqft None" ] = true.
Proof.
  intros Hv. pose proof (view_nested_address _ _ Hv) as Ha.
  destruct (view_inv _ _ Hv)
    as (d & l & ad & p & -> & Hl & Had & Hs & Hp & Eid & Epr & Ebe & Eba & Esq).
  split; [|split; [|split; [|split; [|split; [|split; [|split; [|split]]]]]]].
  - intros Hc. now apply scan_skip with (v_address v).
  - intros Hc Hok. now apply scan_report.
  - intros Habs.
    apply (lookup_path_sub _ _ _ _ _ Hl), (lookup_path_sub _ _ _ _ _ Had) in Habs.
    apply (lookup_path_address _ _ Hs) in Habs.
    split; [exact Habs |].
    apply scan_skip with (v_address v); [exact Ha | now rewrite Habs].
  - intros Habs. apply lookup_path_field in Habs.
    unfold report. cbn [lookup list_lookup]. now rewrite Eid, Habs.
  - intros Habs. apply (lookup_path_sub _ _ _ _ _ Hl), lookup_path_field in Habs.
    unfold report. cbn [lookup list_lookup]. now rewrite Epr, Habs.
  - intros Habs.
    apply (lookup_path_sub _ _ _ _ _ Hl), (lookup_path_sub _ _ _ _ _ Hp),
      lookup_path_field in Habs.
    unfold report. cbn [lookup list_lookup]. now rewrite Ebe, Habs.
  - intros Habs.
    apply (lookup_path_sub _ _ _ _ _ Hl), (lookup_path_sub _ _ _ _ _ Hp),
      lookup_path_field in Habs.
    unfold report. cbn [lookup list_lookup]. now rewrite Eba, Habs.
  - intros Habs.
    apply (lookup_path_sub _ _ _ _ _ Hl), (lookup_path_sub _ _ _ _ _ Hp),
      lookup_path_field in Habs.
    unfold report. cbn [lookup list_lookup]. now rewrite Esq, Habs.
  - reflexivity.
Qed.


End MainProperties.


(** ** The theorems at concrete inputs *)

Lemma first_match_is_reported_witness :
  main (H := sample_repr) no_files
    (always (JDict [ (lit "data",
                      JList ([lowercase_record; bare_record]
                             ++ example_record :: [second_match_record])) ]))
    empty_world
  = (Ret tt, World (environ empty_world)
               (stdout empty_world
                ++ unlines (report (H := sample_repr) example_view)))
  /\ length (report (H := sample_repr) example_view) = 6%nat
  /\ (Forall (fun l => ~ In 10 l) (report (H := sample_repr) example_view) ->
      count_occ Z.eq_dec (unlines (report (H := sample_repr) example_view)) 10
      = 6%nat).
Proof.
  apply (@first_match_is_reported sample_repr no_files
           (always (JDict [ (lit "data",
                             JList ([lowercase_record; bare_record]
                                    ++ example_record :: [second_match_record])) ]))
           empty_world empty_world
           (JDict [ (lit "data",
                     JList ([lowercase_record; bare_record]
                            ++ example_record :: [second_match_record])) ])
           [lowercase_record; bare_record] example_record [second_match_record]
           example_view).
  - reflexivity.
  - reflexivity.
  - reflexivity.
  - constructor.
    + exists (lit "53 bridge street, Rome, NY 13440"). split; reflexivity.
    + constructor.
      * exists []. split; reflexivity.
      * constructor.
  - reflexivity.
  - reflexivity.
  - reflexivity.
Defined.

(** Against the seven lines first asked of a match: the record of the
    end-to-end example, whose address holds the target, is reported in
    six lines. *)
Lemma seven_lines_counterexample :
  records example_payload = Some [example_record]
  /\ nested_address example_record = Some (lit "53 Bridge Street, Rome, NY 13440")
  /\ contains TARGET (lit "53 Bridge Street, Rome, NY 13440") = true
  /\ main (H := sample_repr) no_files (always example_payload) empty_world
     = (Ret tt,
        World ∅ (unlines [ lit "listingId 42";
                           lit "price 250000";
                           lit "beds 3";
                           lit "baths 2";
                           lit "sqft 1500";
                           lit "fullAddress 53 Bridge Street, Rome, NY 13440" ]))
  /\ count_occ Z.eq_dec
       (stdout (snd (main (H := sample_repr) no_files
                       (always example_payload) empty_world))) 10 = 6%nat
  /\ count_occ Z.eq_dec
       (stdout (snd (main (H := sample_repr) no_files
                       (always example_payload) empty_world))) 10 <> 7%nat.
Proof.
  repeat split; try reflexivity. vm_compute. discriminate.
Qed.

Lemma end_to_end_example_witness :
  main (H := sample_repr) no_files (always example_payload) empty_world
  = (Ret tt,
     World (environ empty_world)
       (stdout empty_world
        ++ unlines [ lit "listingId 42";
                     lit "price 250000";
                     lit "beds 3";
                     lit "baths 2";
                     lit "sqft 1500";
                     lit "fullAddress 53 Bridge Street, Rome, NY 13440" ])).
Proof.
  apply (@end_to_end_example sample_repr no_files (always example_payload)
           empty_world empty_world); reflexivity.
Defined.

Lemma no_match_prints_not_found_witness :
  main (H := sample_repr) no_files
    (always (JDict [ (lit "data", JList [bare_record; lowercase_record]) ]))
    empty_world
  = (Ret tt, World (environ empty_world)
               (stdout empty_world ++ unlines [lit "not found"])).
Proof.
  apply (@no_match_prints_not_found sample_repr no_files
           (always (JDict [ (lit "data", JList [bare_record; lowercase_record]) ]))
           empty_world empty_world
           (JDict [ (lit "data", JList [bare_record; lowercase_record]) ])
           [bare_record; lowercase_record]).
  - reflexivity.
  - reflexivity.
  - reflexivity.
  - constructor.
    + exists []. split; reflexivity.
    + constructor.
      * exists (lit "53 bridge street, Rome, NY 13440"). split; reflexivity.
      * constructor.
Defined.

Lemma match_is_case_sensitive_witness :
  main (H := sample_repr) no_files
    (always (JDict [ (lit "data", JList [lowercase_record; inner_match_record]) ]))
    empty_world
  = (Ret tt,
     World (environ empty_world)
       (stdout empty_world
        ++ unlines (report (H := sample_repr)
                      (ListingView (JInt 44) JNone JNone JNone JNone
                         (lit "Rear of 53 Bridge Street, Rome")))))
  /\ main (H := sample_repr) no_files
       (always (JDict [ (lit "data", JList [lowercase_record]) ])) empty_world
     = (Ret tt, World (environ empty_world)
                  (stdout empty_world ++ unlines [lit "not found"]))
  /\ main (H := sample_repr) no_files
       (always (JDict [ (lit "data", JList [lower_record]) ])) empty_world
     = (Ret tt, World (environ empty_world)
                  (stdout empty_world ++ unlines [lit "not found"])).
Proof.
  split; [|split].
  - apply (proj1 (@match_is_case_sensitive sample_repr no_files
             (always (JDict [ (lit "data",
                               JList [lowercase_record; inner_match_record]) ]))
             empty_world empty_world
             (JDict [ (lit "data", JList [lowercase_record; inner_match_record]) ])
             eq_refl eq_refl)
           [lowercase_record] inner_match_record []
           (ListingView (JInt 44) JNone JNone JNone JNone
              (lit "Rear of 53 Bridge Street, Rome"))
           (lit "Rear of ") (lit ", Rome")).
    + reflexivity.
    + constructor; [|constructor].
      exists (lit "53 bridge street, Rome, NY 13440").
      split; [reflexivity |]. apply contains_false_spec. reflexivity.
    + reflexivity.
    + reflexivity.
    + reflexivity.
  - apply (proj1 (proj2 (@match_is_case_sensitive sample_repr no_files
             (always (JDict [ (lit "data", JList [lowercase_record]) ]))
             empty_world empty_world
             (JDict [ (lit "data", JList [lowercase_record]) ])
             eq_refl eq_refl))
           [lowercase_record]).
    + reflexivity.
    + constructor; [|constructor].
      exists (lit "53 bridge street, Rome, NY 13440").
      split; [reflexivity |]. apply contains_false_spec. reflexivity.
  - apply (proj2 (proj2 (@match_is_case_sensitive sample_repr no_files
             (always (JDict [ (lit "data", JList [lower_record]) ]))
             empty_world empty_world
             (JDict [ (lit "data", JList [lower_record]) ])
             eq_refl eq_refl))
           [lower_record]).
    + reflexivity.
    + constructor; [|constructor].
      exists (lit "53 Bridge Street, Rome, NY 13440"). reflexivity.
Defined.

Lemma absent_fields_are_not_errors_witness :
  scan (H := sample_repr) [sparse_match_record] empty_world
  = (Ret tt,
     World ∅ (unlines [ lit "listingId None"; lit "price None"; lit "beds None";
                        lit "baths None"; lit "sqft None";
                        lit "fullAddress 53 Bridge Street" ]))
  /\ report (H := sample_repr) sparse_view !! 2%nat = Some (lit "beds None").
Proof.
  pose proof (@absent_fields_are_not_errors sample_repr sparse_match_record
                sparse_view [] empty_world eq_refl)
    as (_ & Hscan & _ & _ & _ & Hbeds & _).
  split.
  - apply Hscan; reflexivity.
  - apply Hbeds. reflexivity.
Defined.


(** * Further properties *)

(** ** [load_dotenv], on any file and with any outcome *)

Lemma environ_setdefault_frame k v w o w' :
  environ_setdefault k v w = (o, w') ->
  forall k0, k0 <> k -> environ w' !! k0 = environ w !! k0.
Proof.
  unfold environ_setdefault, environ_setitem. intros Hr k0 Hne.
  destruct (negb (fs_encodable k)); [now inversion Hr |].
  destruct (environ w !! k) eqn:Hl; [now inversion Hr |].
  destruct (negb _); [now inversion Hr |].
  destruct (has_nul k || has_nul v); [now inversion Hr |].
  destruct (contains (lit "=") k); [now inversion Hr |].
  destruct k as [|c k]; inversion Hr; subst; simpl; [reflexivity |].
  now apply lookup_insert_ne.
Qed.

Lemma for_each_line_frame lines w o w' k0 :
  for_each lines load_dotenv_line w = (o, w') ->
  ~ In k0 (file_keys lines) ->
  environ w' !! k0 = environ w !! k0.
Proof.
  revert w. induction lines as [|l lines IH]; intros w Hr Hn.
  - now inversion Hr.
  - simpl in Hr, Hn. unfold bind in Hr. rewrite load_dotenv_line_entry in Hr.
    destruct (config_entry l) as [[k v]|].
    + destruct (environ_setdefault k v w) as [[[]|e] w1] eqn:Hs.
      * rewrite (IH w1 Hr) by (intros Hin; apply Hn; now right).
        apply (environ_setdefault_frame _ _ _ _ _ Hs). intros ->. apply Hn. now left.
      * inversion Hr; subst.
        apply (environ_setdefault_frame _ _ _ _ _ Hs). intros ->. apply Hn. now left.
    + now apply IH.
Qed.

(** X1. Whatever the file holds and however the call ends, [load_dotenv]
    prints nothing and leaves every variable that was set with the value
    it had: it only ever adds variables. *)
Theorem load_dotenv_only_adds fs path w :
  stdout (snd (load_dotenv fs path w)) = stdout w
  /\ forall k v,
       environ w !! k = Some v ->
       environ (snd (load_dotenv fs path w)) !! k = Some v.
Proof.
  destruct (load_dotenv fs path w) as [o w'] eqn:Hr.
  exact (load_dotenv_keeps fs path w o w' Hr).
Qed.

(** X2. A variable that is the key of no entry of the file is left as it
    was, set or unset, however the call ends. *)
Theorem load_dotenv_touches_only_file_keys fs path lines w k :
  fs path = TextFile lines ->
  ~ In k (file_keys lines) ->
  environ (snd (load_dotenv fs path w)) !! k = environ w !! k.
Proof.
  intros Hf Hn. unfold load_dotenv. rewrite Hf.
  destruct (for_each lines load_dotenv_line w) as [o w'] eqn:Hr.
  exact (for_each_line_frame lines w o w' k Hr Hn).
Qed.

Lemma load_dotenv_touches_only_file_keys_witness :
  environ (snd (load_dotenv
                  (fun _ => TextFile [lit "# keys"; lit "REGION=us"; lit "=broken"])
                  (lit ".env") shell_world)) !! lit "RE_API_KEY"
  = environ shell_world !! lit "RE_API_KEY".
Proof.
  apply (load_dotenv_touches_only_file_keys
           (fun _ => TextFile [lit "# keys"; lit "REGION=us"; lit "=broken"])
           (lit ".env") [lit "# keys"; lit "REGION=us"; lit "=broken"]).
  - reflexivity.
  - vm_compute. intros [H | [H | []]]; discriminate.
Defined.

(** A line that returns leaves its key set, and the key is one
    [os.environ] can look up. *)
Lemma load_dotenv_line_sets line k v w w' :
  load_dotenv_line line w = (Ret tt, w') -> config_entry line = Some (k, v) ->
  fs_encodable k = true /\ is_Some (environ w' !! k).
Proof.
  rewrite load_dotenv_line_entry. intros Hr He. rewrite He in Hr.
  unfold environ_setdefault, environ_setitem in Hr.
  destruct (fs_encodable k); [|discriminate]. split; [reflexivity |].
  cbn [negb] in Hr.
  destruct (environ w !! k) eqn:Hl; [inversion Hr; subst; now rewrite Hl |].
  destruct (negb _); [discriminate |].
  destruct (has_nul k || has_nul v); [discriminate |].
  destruct (contains (lit "=") k); [discriminate |].
  destruct k as [|c k]; inversion Hr; subst; simpl.
  rewrite lookup_insert_eq. now eexists.
Qed.

(** A line whose key is set changes nothing. *)
Lemma load_dotenv_line_again line w :
  (forall k v, config_entry line = Some (k, v) ->
               fs_encodable k = true /\ is_Some (environ w !! k)) ->
  load_dotenv_line line w = (Ret tt, w).
Proof.
  intros Hset. rewrite load_dotenv_line_entry.
  destruct (config_entry line) as [[k v]|]; [|reflexivity].
  destruct (Hset k v eq_refl) as [Hk [old Hold]].
  now apply environ_setdefault_present with old.
Qed.

Lemma for_each_line_again lines w w1 :
  for_each lines load_dotenv_line w = (Ret tt, w1) ->
  forall w2,
    (forall k v, environ w1 !! k = Some v -> is_Some (environ w2 !! k)) ->
    for_each lines load_dotenv_line w2 = (Ret tt, w2).
Proof.
  revert w. induction lines as [|l lines IH]; intros w Hr w2 Hsub.
  - reflexivity.
  - simpl in Hr. unfold bind in Hr.
    destruct (load_dotenv_line l w) as [[[]|e] wa] eqn:Hl; [|discriminate].
    simpl. unfold bind. rewrite load_dotenv_line_again.
    + now apply (IH wa).
    + intros k v He. destruct (load_dotenv_line_sets _ _ _ _ _ Hl He) as [Hk [x Hx]].
      split; [exact Hk |]. apply (Hsub k x).
      apply for_each_line_keeps in Hr as [_ Hkeep]. now apply Hkeep.
Qed.

(** X3. Loading is idempotent: when [load_dotenv] has returned, calling it
    again on the same file returns and changes nothing. *)
Theorem load_dotenv_idempotent fs path w w1 :
  load_dotenv fs path w = (Ret tt, w1) ->
  load_dotenv fs path w1 = (Ret tt, w1).
Proof.
  unfold load_dotenv. destruct (fs path) as [|lines|lines e|]; intros Hr.
  - reflexivity.
  - apply (for_each_line_again lines w w1 Hr). intros k v Hkv. now exists v.
  - unfold bind in Hr.
    destruct (for_each lines load_dotenv_line w) as [[[]|?] ?]; discriminate.
  - discriminate.
Qed.

Lemma load_dotenv_idempotent_witness :
  load_dotenv (fun _ => TextFile [lit "REGION=us"; lit "RE_API_KEY=from-file"])
    (lit ".env")
    (World (<[lit "REGION" := lit "us"]> (environ shell_world)) [])
  = (Ret tt, World (<[lit "REGION" := lit "us"]> (environ shell_world)) []).
Proof.
  apply (load_dotenv_idempotent
           (fun _ => TextFile [lit "REGION=us"; lit "RE_API_KEY=from-file"])
           (lit ".env") shell_world).
  vm_compute. reflexivity.
Defined.

Lemma well_formed_keys_not_empty lines :
  Forall (fun l => well_formed_line l = true) lines -> ~ In [] (file_keys lines).
Proof.
  induction 1 as [|l lines Hl _ IH]; simpl; [tauto |].
  unfold well_formed_line in Hl.
  destruct (config_entry l) as [[k v]|]; [|exact IH].
  apply fs_encodable_legal in Hl as (_ & _ & _ & _ & Hne).
  intros [-> | Hin]; [congruence | tauto].
Qed.

Lemma load_dotenv_first_entry fs path pre line post key val w :
  fs path = TextFile (pre ++ line :: post) ->
  Forall (fun l => well_formed_line l = true) (pre ++ line :: post) ->
  config_entry line = Some (key, val) ->
  environ w !! key = None ->
  ~ In key (file_keys pre) ->
  exists w', load_dotenv fs path w = (Ret tt, w')
             /\ environ w' !! key = Some val.
Proof.
  intros Hf Hall He Hunset Hfresh.
  apply Forall_app in Hall as [Hpre Hrest].
  apply Forall_cons in Hrest as [Hline Hpost].
  destruct (for_each_line_returns pre w Hpre) as [w1 H1].
  destruct (load_dotenv_line_well_formed line key val w1 Hline He) as (w2 & H2 & Hk).
  destruct (for_each_line_returns post w2 Hpost) as [w' H3].
  exists w'. split.
  - unfold load_dotenv. rewrite Hf, for_each_app. unfold bind. rewrite H1.
    simpl. unfold bind. now rewrite H2.
  - pose proof (eq_trans (for_each_line_frame pre w _ w1 key H1 Hfresh) Hunset) as Hk1.
    rewrite Hk1 in Hk.
    apply for_each_line_keeps in H3 as [_ Hkeep]. now apply Hkeep.
Qed.


(** X4. Of several entries for one key the first wins: when the key is
    not set and no earlier line of a well-formed file names it, the
    variable ends with the value of this entry, whatever the lines after
    it say. *)
Theorem first_entry_of_a_key_wins fs path pre line post key val w :
  fs path = TextFile (pre ++ line :: post) ->
  Forall (fun l => well_formed_line l = true) (pre ++ line :: post) ->
  config_entry line = Some (key, val) ->
  environ w !! key = None ->
  ~ In key (file_keys pre) ->
  exists w', load_dotenv fs path w = (Ret tt, w')
             /\ environ w' !! key = Some val.
Proof.
  apply load_dotenv_first_entry.
Qed.

Lemma first_entry_of_a_key_wins_witness :
  exists w',
    load_dotenv
      (fun _ => TextFile ([lit "# region"] ++ lit "REGION=us" :: [lit "REGION=eu"]))
      (lit ".env") shell_world = (Ret tt, w')
    /\ environ w' !! lit "REGION" = Some (lit "us").
Proof.
  apply (first_entry_of_a_key_wins
           (fun _ => TextFile ([lit "# region"] ++ lit "REGION=us" :: [lit "REGION=eu"]))
           (lit ".env") [lit "# region"] (lit "REGION=us") [lit "REGION=eu"]).
  - reflexivity.
  - repeat constructor.
  - reflexivity.
  - reflexivity.
  - simpl. tauto.
Defined.

Lemma load_dotenv_empty_key fs path pre line post w :
  fs path = TextFile (pre ++ line :: post) ->
  Forall (fun l => well_formed_line l = true) pre ->
  startswith (lit "=") (strip line) = true ->
  environ w !! ([] : pystr) = None ->
  exists e w1,
    for_each pre load_dotenv_line w = (Ret tt, w1)
    /\ load_dotenv fs path w = (Exc e, w1).
Proof.
  intros Hf Hpre Hs Hunset.
  destruct (for_each_line_returns pre w Hpre) as [w1 H1].
  assert (Hl : environ w1 !! ([] : pystr) = None).
  { exact (eq_trans (for_each_line_frame pre w _ w1 [] H1
                         (well_formed_keys_not_empty pre Hpre)) Hunset). }
  change (lit "=") with [61] in Hs. apply startswith_char in Hs as [t Ht].
  assert (He : config_entry line = Some ([], t)).
  { unfold config_entry. rewrite Ht. change (lit "=") with [61].
    change (startswith (lit "#") (61 :: t)) with false. cbv iota.
    apply (cut_char_first 61 [] t). simpl. tauto. }
  assert (Hraise : exists e, load_dotenv_line line w1 = (Exc e, w1)).
  { rewrite load_dotenv_line_entry, He.
    unfold environ_setdefault, environ_setitem.
    change (fs_encodable []) with true. cbn [negb andb]. rewrite Hl.
    destruct (negb (fs_encodable t)); [eauto |].
    destruct (has_nul [] || has_nul t); [eauto |].
    change (contains (lit "=") []) with false. cbv iota. eauto. }
  destruct Hraise as [e He1]. exists e, w1. split; [exact H1 |].
  unfold load_dotenv. rewrite Hf, for_each_app. unfold bind. rewrite H1.
  simpl. unfold bind. now rewrite He1.
Qed.


(** X5. A line whose first character after stripping is [=] has the empty
    key, which the environment refuses: [load_dotenv] raises there, the
    lines before it have taken effect and the lines after it are not
    read. *)
Theorem empty_key_line_raises fs path pre line post w :
  fs path = TextFile (pre ++ line :: post) ->
  Forall (fun l => well_formed_line l = true) pre ->
  startswith (lit "=") (strip line) = true ->
  environ w !! ([] : pystr) = None ->
  exists e w1,
    for_each pre load_dotenv_line w = (Ret tt, w1)
    /\ load_dotenv fs path w = (Exc e, w1).
Proof.
  apply load_dotenv_empty_key.
Qed.

Lemma empty_key_line_raises_witness :
  exists e w1,
    for_each [lit "REGION=us"] load_dotenv_line shell_world = (Ret tt, w1)
    /\ load_dotenv
         (fun _ => TextFile ([lit "REGION=us"] ++ lit " =secret" :: [lit "ZONE=a"]))
         (lit ".env") shell_world
       = (Exc e, w1).
Proof.
  apply (empty_key_line_raises
           (fun _ => TextFile ([lit "REGION=us"] ++ lit " =secret" :: [lit "ZONE=a"]))
           (lit ".env") [lit "REGION=us"] (lit " =secret") [lit "ZONE=a"]).
  - reflexivity.
  - repeat constructor.
  - reflexivity.
  - reflexivity.
Defined.

(** ** [str.strip] *)

Lemma lstrip_spaces ws s : forallb isspace ws = true -> lstrip (ws ++ s) = lstrip s.
Proof.
  induction ws as [|c ws IH]; simpl; [reflexivity |].
  rewrite andb_true_iff. intros [Hc Hws]. rewrite Hc. now apply IH.
Qed.

Lemma lstrip_length s : (length (lstrip s) <= length s)%nat.
Proof.
  induction s as [|c s IH]; simpl; [lia |].
  destruct (isspace c); simpl; lia.
Qed.

Lemma lstrip_fixed_head c s : lstrip (c :: s) = c :: s -> isspace c = false.
Proof.
  simpl. destruct (isspace c); [|reflexivity].
  intros Heq. pose proof (lstrip_length s) as Hlen. rewrite Heq in Hlen.
  simpl in Hlen. lia.
Qed.

Lemma lstrip_fixed_app s t : s <> [] -> lstrip s = s -> lstrip (s ++ t) = s ++ t.
Proof.
  destruct s as [|c s]; [congruence |]. intros _ Hfix.
  apply lstrip_fixed_head in Hfix. simpl. now rewrite Hfix.
Qed.

Lemma rstrip_spaces s ws : forallb isspace ws = true -> rstrip (s ++ ws) = rstrip s.
Proof.
  intros Hws. unfold rstrip. rewrite rev_app_distr, lstrip_spaces; [reflexivity |].
  rewrite forallb_forall in *. intros c Hc. apply Hws. now apply in_rev.
Qed.

Lemma rstrip_fixed_app s t : t <> [] -> rstrip t = t -> rstrip (s ++ t) = s ++ t.
Proof.
  intros Hne Hfix. unfold rstrip in *. rewrite rev_app_distr.
  rewrite lstrip_fixed_app.
  - now rewrite <- rev_app_distr, rev_involutive.
  - intros Hr. apply Hne. rewrite <- (rev_involutive t), Hr. reflexivity.
  - rewrite <- Hfix at 2. now rewrite rev_involutive.
Qed.

(** Stripping takes the white space around a text that neither begins
    nor ends with white space, and nothing else. *)
Lemma strip_padded ws1 s ws2 :
  forallb isspace ws1 = true -> forallb isspace ws2 = true ->
  s <> [] -> lstrip s = s -> rstrip s = s ->
  strip (ws1 ++ s ++ ws2) = s.
Proof.
  intros H1 H2 Hne Hl Hr. unfold strip.
  rewrite lstrip_spaces by assumption.
  rewrite lstrip_fixed_app by assumption.
  now rewrite rstrip_spaces.
Qed.

(** X6. A line written as white space, a key, [=], a value and white
    space is read back as that key and that value exactly: the white
    space around the line goes, and what is between stays, the spaces
    next to the [=], a [#] and further [=] in the value included. The
    key is one that holds no [=] and begins with neither white space nor
    [#]; the value does not end with white space. *)
Theorem padded_entry_is_parsed ws1 ws2 key val w :
  forallb isspace ws1 = true -> forallb isspace ws2 = true ->
  lstrip key = key -> rstrip val = val ->
  startswith (lit "#") key = false -> contains (lit "=") key = false ->
  load_dotenv_line (ws1 ++ (key ++ lit "=" ++ val) ++ ws2) w
  = environ_setdefault key val w.
Proof.
  intros H1 H2 Hk Hv Hc He. change (lit "=") with [61] in *.
  assert (Hs : strip (ws1 ++ (key ++ [61] ++ val) ++ ws2) = key ++ [61] ++ val).
  { apply strip_padded; try assumption.
    - destruct key; discriminate.
    - destruct key as [|c key]; [reflexivity |].
      now apply (lstrip_fixed_app (c :: key)).
    - destruct val as [|c val].
      + rewrite app_nil_r. unfold rstrip. rewrite rev_app_distr. simpl.
        now rewrite rev_involutive.
      + rewrite (app_assoc key [61] (c :: val)).
        now apply rstrip_fixed_app. }
  rewrite load_dotenv_line_entry. unfold config_entry. rewrite Hs.
  assert (Hc' : startswith (lit "#") (key ++ [61] ++ val) = false).
  { destruct key as [|c key]; [reflexivity |].
    change (lit "#") with [35] in *. simpl in *.
    now rewrite andb_true_r in *. }
  rewrite Hc'. change (lit "=") with [61].
  apply contains_char_not_In in He.
  change (key ++ [61] ++ val) with (key ++ 61 :: val).
  now rewrite (cut_char_first 61 key val He).
Qed.

Lemma padded_entry_is_parsed_witness :
  load_dotenv_line (lit "  " ++ (lit "KEY " ++ lit "=" ++ lit " a=b # c") ++ lit "  ")
    empty_world
  = environ_setdefault (lit "KEY ") (lit " a=b # c") empty_world.
Proof.
  apply (padded_entry_is_parsed (lit "  ") (lit "  ") (lit "KEY ") (lit " a=b # c"));
    reflexivity.
Defined.

(** ** [main]: the request *)


Section MainRequest.
Context `{PyRepr}.

(** [main] asks the network one thing: the answer to the request built
    from the API key of the environment [load_dotenv] leaves, with a
    time-out of 60. *)
Lemma main_network_only fs urlopen urlopen' w :
  urlopen' (build_request (api_key (snd (load_dotenv fs (lit ".env") w)))) 60
  = urlopen (build_request (api_key (snd (load_dotenv fs (lit ".env") w)))) 60 ->
  main fs urlopen' w = main fs urlopen w.
Proof.
  intros Hn. unfold main, bind.
  destruct (load_dotenv fs (lit ".env") w) as [[[]|e] w1]; [|reflexivity].
  simpl in Hn. unfold environ_get.
  change (negb (fs_encodable (lit "RE_API_KEY"))) with false. cbv iota.
  repeat match goal with
  | |- context [?u ?r 60] =>
      progress change (u r 60) with (u (build_request (api_key w1)) 60)
  end.
  now rewrite Hn.
Qed.

Lemma main_load_returned fs urlopen w w1 :
  load_dotenv fs (lit ".env") w = (Ret tt, w1) ->
  main fs urlopen w
  = match urlopen (build_request (api_key w1)) 60 with
    | Parsed payload =>
        bind (get payload (lit "data") (JList []))
          (fun data => bind (py_iter data) (fun items => scan items)) w1
    | HTTPError code reason body =>
        bind (print [JStr (lit "HTTP error"); JInt code; JStr (latin1 reason)])
          (fun _ => print [JStr (utf8_decode_ignore body)]) w1
    | Failed e => (Exc e, w1)
    end.
Proof.
  intros Hl. unfold main. unfold bind at 1. rewrite Hl. unfold bind at 1.
  unfold environ_get.
  change (negb (fs_encodable (lit "RE_API_KEY"))) with false. cbv iota.
  match goal with
  | |- context [urlopen ?r 60] =>
      change (urlopen r 60) with (urlopen (build_request (api_key w1)) 60)
  end.
  destruct (urlopen (build_request (api_key w1)) 60); reflexivity.
Qed.

(** When [load_dotenv] returns, [main] sends the request built from the
    API key of the environment it leaves. *)
Lemma main_sends fs w w1 :
  load_dotenv fs (lit ".env") w = (Ret tt, w1) ->
  sends fs w (build_request (api_key w1)).
Proof.
  intros Hl. split.
  - intros urlopen urlopen' Hn. apply main_network_only. now rewrite Hl.
  - intros urlopen e Hn. rewrite (main_load_returned _ _ _ _ Hl), Hn.
    split; [reflexivity |]. cbn [snd].
    now apply load_dotenv_keeps in Hl as [-> _].
Qed.

Lemma build_request_facts k :
  header (lit "x-api-key") (build_request k) = Some k
  /\ header (lit "Content-Type") (build_request k) = Some (lit "application/json")
  /\ header (lit "Accept") (build_request k) = Some (lit "application/json")
  /\ req_url (build_request k) = lit "https://api.realestateapi.com/v2/MLSSearch"
  /\ req_method (build_request k) = lit "POST"
  /\ req_body (build_request k) = search_body.
Proof. repeat split. Qed.

(** X7. A key set in the environment is the key that is sent. When
    [RE_API_KEY] is set as [main] starts and [load_dotenv] returns,
    whatever the configuration file holds, [main] sends one request, a
    POST to the search URL with the two JSON headers and the search
    body, and its [x-api-key] header is that value. *)
Theorem shell_api_key_is_sent fs w w1 k :
  environ w !! lit "RE_API_KEY" = Some k ->
  load_dotenv fs (lit ".env") w = (Ret tt, w1) ->
  exists r,
    sends fs w r
    /\ header (lit "x-api-key") r = Some k
    /\ header (lit "Content-Type") r = Some (lit "application/json")
    /\ header (lit "Accept") r = Some (lit "application/json")
    /\ req_url r = lit "https://api.realestateapi.com/v2/MLSSearch"
    /\ req_method r = lit "POST"
    /\ req_body r = search_body.
Proof.
  intros Hk Hl. exists (build_request k). split; [|apply build_request_facts].
  assert (Hk1 : api_key w1 = k).
  { apply load_dotenv_keeps in Hl as [_ Hkeep].
    exact (f_equal (default []) (Hkeep _ _ Hk)). }
  rewrite <- Hk1. now apply main_sends.
Qed.

(** X8. A key that only the file gives is the key that is sent: when
    [RE_API_KEY] is not set and a well-formed file has its first entry
    for it with value [v], the request [main] sends has [v] as its
    [x-api-key] header. *)
Theorem file_api_key_is_sent fs pre line post v w :
  fs (lit ".env") = TextFile (pre ++ line :: post) ->
  Forall (fun l => well_formed_line l = true) (pre ++ line :: post) ->
  config_entry line = Some (lit "RE_API_KEY", v) ->
  environ w !! lit "RE_API_KEY" = None ->
  ~ In (lit "RE_API_KEY") (file_keys pre) ->
  exists r,
    sends fs w r
    /\ header (lit "x-api-key") r = Some v
    /\ req_url r = lit "https://api.realestateapi.com/v2/MLSSearch"
    /\ req_method r = lit "POST".
Proof.
  intros Hf Hall He Hk Hfresh.
  destruct (load_dotenv_first_entry fs (lit ".env") pre line post
              (lit "RE_API_KEY") v w Hf Hall He Hk Hfresh) as (w' & Hl & Hv).
  exists (build_request v). split; [|repeat split].
  assert (Hk1 : api_key w' = v) by exact (f_equal (default []) Hv).
  rewrite <- Hk1. now apply main_sends.
Qed.

(** X9. With no key in the environment and none in the file, or no file,
    the request is sent all the same once [load_dotenv] has returned,
    with the empty string as its [x-api-key] header. *)
Theorem missing_api_key_sends_empty fs w w1 :
  environ w !! lit "RE_API_KEY" = None ->
  (forall lines, fs (lit ".env") = TextFile lines ->
                 ~ In (lit "RE_API_KEY") (file_keys lines)) ->
  load_dotenv fs (lit ".env") w = (Ret tt, w1) ->
  exists r,
    sends fs w r
    /\ header (lit "x-api-key") r = Some []
    /\ req_url r = lit "https://api.realestateapi.com/v2/MLSSearch"
    /\ req_method r = lit "POST".
Proof.
  intros Hk Hfile Hl. exists (build_request []). split; [|repeat split].
  assert (Hk1 : api_key w1 = []).
  { assert (Hw : environ w1 !! lit "RE_API_KEY" = None).
    { revert Hl. unfold load_dotenv.
      destruct (fs (lit ".env")) as [|lines|lines e|] eqn:Hf; intros Hl.
      - inversion Hl; subst. exact Hk.
      - exact (eq_trans (for_each_line_frame lines w _ w1 _ Hl
                           (Hfile lines eq_refl)) Hk).
      - unfold bind in Hl.
        destruct (for_each lines load_dotenv_line w) as [[[]|?] ?]; discriminate.
      - discriminate. }
    exact (f_equal (default []) Hw). }
  rewrite <- Hk1. now apply main_sends.
Qed.

(** X10. An exception of [urlopen] or [json.load] other than [HTTPError]
    is not caught: [main] raises it, having printed nothing. *)
Theorem other_failures_propagate fs urlopen w w1 e :
  load_dotenv fs (lit ".env") w = (Ret tt, w1) ->
  urlopen (build_request (api_key w1)) 60 = Failed e ->
  main fs urlopen w = (Exc e, World (environ w1) (stdout w)).
Proof.
  intros Hl Hn. rewrite (main_load_returned _ _ _ _ Hl), Hn.
  apply load_dotenv_keeps in Hl as [<- _]. now destruct w1.
Qed.


End MainRequest.

Lemma shell_api_key_is_sent_witness :
  exists r,
    sends (H := sample_repr)
      (fun _ => TextFile [lit "RE_API_KEY=from-file"]) shell_world r
    /\ header (lit "x-api-key") r = Some (lit "from-shell")
    /\ header (lit "Content-Type") r = Some (lit "application/json")
    /\ header (lit "Accept") r = Some (lit "application/json")
    /\ req_url r = lit "https://api.realestateapi.com/v2/MLSSearch"
    /\ req_method r = lit "POST"
    /\ req_body r = search_body.
Proof.
  apply (@shell_api_key_is_sent sample_repr
           (fun _ => TextFile [lit "RE_API_KEY=from-file"])
           shell_world shell_world (lit "from-shell")).
  - reflexivity.
  - reflexivity.
Defined.

Lemma file_api_key_is_sent_witness :
  exists r,
    sends (H := sample_repr)
      (fun _ => TextFile ([lit "# keys"] ++ lit "RE_API_KEY=from-file"
                                         :: [lit "RE_API_KEY=later"]))
      empty_world r
    /\ header (lit "x-api-key") r = Some (lit "from-file")
    /\ req_url r = lit "https://api.realestateapi.com/v2/MLSSearch"
    /\ req_method r = lit "POST".
Proof.
  apply (@file_api_key_is_sent sample_repr
           (fun _ => TextFile ([lit "# keys"] ++ lit "RE_API_KEY=from-file"
                                              :: [lit "RE_API_KEY=later"]))
           [lit "# keys"] (lit "RE_API_KEY=from-file") [lit "RE_API_KEY=later"]
           (lit "from-file") empty_world).
  - reflexivity.
  - repeat constructor.
  - reflexivity.
  - reflexivity.
  - simpl. tauto.
Defined.

Lemma missing_api_key_sends_empty_witness :
  exists r,
    sends (H := sample_repr) (fun _ => TextFile [lit "REGION=us"]) empty_world r
    /\ header (lit "x-api-key") r = Some []
    /\ req_url r = lit "https://api.realestateapi.com/v2/MLSSearch"
    /\ req_method r = lit "POST".
Proof.
  apply (@missing_api_key_sends_empty sample_repr
           (fun _ => TextFile [lit "REGION=us"]) empty_world
           (World {[ lit "REGION" := lit "us" ]} [])).
  - reflexivity.
  - intros lines Hl. inversion Hl; subst. vm_compute.
    intros [Heq | []]. discriminate.
  - vm_compute. reflexivity.
Defined.

Lemma other_failures_propagate_witness :
  main (H := sample_repr) no_files (fun _ _ => Failed URLError) empty_world
  = (Exc URLError, World (environ empty_world) (stdout empty_world)).
Proof.
  apply (@other_failures_propagate sample_repr no_files
           (fun _ _ => Failed URLError) empty_world empty_world URLError);
    reflexivity.
Defined.



(** ** [main]: what it leaves behind *)

Lemma appends_ret {A} (a : A) : appends (ret a).
Proof. intros w. split; [reflexivity |]. exists []. now rewrite app_nil_r. Qed.

Lemma appends_raise {A} e : appends (@raise A e).
Proof. intros w. split; [reflexivity |]. exists []. now rewrite app_nil_r. Qed.

Lemma appends_get o key dflt : appends (get o key dflt).
Proof. destruct o; first [apply appends_ret | apply appends_raise]. Qed.

Lemma appends_py_in needle o : appends (py_in needle o).
Proof. destruct o; first [apply appends_ret | apply appends_raise]. Qed.

Lemma appends_py_iter o : appends (py_iter o).
Proof. destruct o; first [apply appends_ret | apply appends_raise]. Qed.

Lemma appends_write s : appends (write s).
Proof.
  intros w. unfold write. destruct (forallb is_scalar s); cbn [snd environ stdout].
  - split; [reflexivity |]. now exists s.
  - split; [reflexivity |]. exists []. now rewrite app_nil_r.
Qed.

Lemma appends_bind {A B} (c : py A) (k : A -> py B) :
  appends c -> (forall a, appends (k a)) -> appends (bind c k).
Proof.
  intros Hc Hk w. unfold bind. destruct (Hc w) as (He & out & Ho).
  destruct (c w) as [[a|e] w1]; simpl in *.
  - destruct (Hk a w1) as (He' & out' & Ho').
    split; [congruence |]. exists (out ++ out').
    now rewrite Ho', Ho, app_assoc.
  - split; [exact He |]. now exists out.
Qed.

Section MainOutput.
Context `{PyRepr}.

Lemma appends_write_args args : appends (write_args args).
Proof.
  induction args as [|a rest IH]; cbn [write_args].
  - apply appends_ret.
  - apply appends_bind; [apply appends_write | intros _].
    apply appends_bind; [apply appends_write | intros _]. exact IH.
Qed.

Lemma appends_print args : appends (print args).
Proof.
  unfold print. apply appends_bind; [| intros _; apply appends_write].
  destruct args as [|a rest]; [apply appends_ret |].
  apply appends_bind; [apply appends_write | intros _; apply appends_write_args].
Qed.

Lemma appends_scan items : appends (scan items).
Proof.
  induction items as [|item rest IH].
  - apply appends_print.
  - cbn [scan].
    apply appends_bind; [apply appends_get | intros l0].
    apply appends_bind; [apply appends_get | intros address].
    apply appends_bind; [apply appends_get | intros a].
    apply appends_bind; [apply appends_py_in | intros [|]]; [|exact IH].
    apply appends_bind; [apply appends_get | intros listing].
    apply appends_bind; [apply appends_get | intros prop].
    repeat (apply appends_bind; [apply appends_get | intros ?];
            first [apply appends_bind; [apply appends_print | intros _]
                  | apply appends_print]).
Qed.

(** X12. On every input and however it ends, also by an exception in the
    middle of a line, [main] only adds to the text of the standard
    output; the environment it leaves is the one [load_dotenv] left; and
    no variable that was set when it started has changed. *)
Theorem main_only_appends fs urlopen w :
  environ (snd (main fs urlopen w))
  = environ (snd (load_dotenv fs (lit ".env") w))
  /\ (exists out, stdout (snd (main fs urlopen w)) = stdout w ++ out)
  /\ forall k v,
       environ w !! k = Some v ->
       environ (snd (main fs urlopen w)) !! k = Some v.
Proof.
  assert (Hrest : forall w1,
             appends
               (fun w0 =>
                  match urlopen (build_request (api_key w1)) 60 with
                  | Parsed payload =>
                      bind (get payload (lit "data") (JList []))
                        (fun data => bind (py_iter data) (fun items => scan items)) w0
                  | HTTPError code reason body =>
                      bind (print [JStr (lit "HTTP error"); JInt code;
                                   JStr (latin1 reason)])
                        (fun _ => print [JStr (utf8_decode_ignore body)]) w0
                  | Failed e => (Exc e, w0)
                  end)).
  { intros w1 w0. destruct (urlopen (build_request (api_key w1)) 60).
    - revert w0. apply appends_bind; [apply appends_get | intros data].
      apply appends_bind; [apply appends_py_iter | intros items].
      apply appends_scan.
    - revert w0. apply appends_bind; [apply appends_print | intros _].
      apply appends_print.
    - exact (appends_raise e w0). }
  destruct (load_dotenv fs (lit ".env") w) as [[[]|e] w1] eqn:Hl.
  - rewrite (main_load_returned _ _ _ _ Hl). cbn [snd].
    destruct (Hrest w1 w1) as (He & out & Ho).
    apply load_dotenv_keeps in Hl as [Hs Hkeep].
    split; [exact He |]. split.
    + exists out. now rewrite Ho, Hs.
    + intros k v Hkv. rewrite He. now apply Hkeep.
  - assert (Hm : main fs urlopen w = (Exc e, w1))
      by (unfold main, bind; now rewrite Hl).
    rewrite Hm. cbn [snd]. apply load_dotenv_keeps in Hl as [Hs Hkeep].
    split; [reflexivity |]. split.
    + exists []. now rewrite app_nil_r.
    + exact Hkeep.
Qed.

End MainOutput.


(** ** [main]: records and payloads outside the data model *)

Section MainEdges.
Context `{PyRepr}.

(** A record either is passed over or ends the scan, in a way that does
    not depend on the records after it. *)
Lemma scan_step r w :
  (forall rest, scan (r :: rest) w = scan rest w)
  \/ (exists res, forall rest, scan (r :: rest) w = res).
Proof.
  cbn [scan]. unfold bind, get, ret, raise.
  destruct r as [| | | | | |d];
    try (right; eexists; intros rest; reflexivity).
  destruct (default (JDict []) (assoc (lit "listing") d)) as [| | | | | |l];
    try (right; eexists; intros rest; reflexivity).
  destruct (default (JDict []) (assoc (lit "address") l)) as [| | | | | |ad];
    try (right; eexists; intros rest; reflexivity).
  unfold py_in, ret, raise.
  destruct (default (JStr []) (assoc (lit "unparsedAddress") ad))
    as [| | | |s|li|dd];
    try (right; eexists; intros rest; reflexivity).
  - destruct (contains TARGET s);
      [right; eexists; intros rest; reflexivity | left; intros rest; reflexivity].
  - destruct (existsb _ li);
      [right; eexists; intros rest; reflexivity | left; intros rest; reflexivity].
  - destruct (existsb _ dd);
      [right; eexists; intros rest; reflexivity | left; intros rest; reflexivity].
Qed.

Lemma passed_over_skip r rest w :
  passed_over r = true -> scan (r :: rest) w = scan rest w.
Proof.
  unfold passed_over. destruct (nested_address r) as [a|] eqn:Ha; [|discriminate].
  rewrite negb_true_iff. intros Hc. exact (scan_skip r a rest w Ha Hc).
Qed.

(** X13. The records that are passed over have no part in what [main]
    does with a list of records: scanning the list without them gives
    the same output and the same outcome, an exception raised by a later
    record included. *)
Theorem scan_ignores_passed_over items w :
  scan (List.filter (fun r => negb (passed_over r)) items) w = scan items w.
Proof.
  induction items as [|r items IH]; [reflexivity |].
  cbn [List.filter]. destruct (passed_over r) eqn:Hp; cbn [negb].
  - now rewrite (passed_over_skip r items w Hp).
  - destruct (scan_step r w) as [Hskip | [res Hres]].
    + now rewrite !Hskip.
    + now rewrite !Hres.
Qed.


(** X15. When the record that matches has a [property] that is there and
    is no object, and the standard output accepts the two values, [main]
    has printed the lines of [listingId] and of [price] when it raises
    [AttributeError]: the report is cut after two [print]s. *)
Theorem bad_property_prints_two_lines d l s x rest w :
  assoc (lit "listing") d = Some (JDict l) ->
  nested_address (JDict d) = Some s ->
  contains TARGET s = true ->
  assoc (lit "property") l = Some x ->
  is_dict x = false ->
  forallb is_scalar (str (field (lit "listingId") d)) = true ->
  forallb is_scalar (str (field (lit "listPriceLow") l)) = true ->
  scan (JDict d :: rest) w
  = (Exc AttributeError,
     World (environ w)
       (stdout w
        ++ unlines [ lit "listingId " ++ str (field (lit "listingId") d);
                     lit "price " ++ str (field (lit "listPriceLow") l) ])).
Proof.
  intros El Hn Hc Ep Hx O1 O2.
  unfold nested_address, sub_dict in Hn. rewrite El in Hn. simpl in Hn.
  destruct (assoc (lit "address") l) as [[| | | | | |ad]|] eqn:Ea;
    try discriminate; simpl in Hn.
  - cbn [scan]. unfold bind, get, ret. rewrite El. cbn [default from_option id].
    rewrite Ea. cbn [default from_option id]. rewrite (address_str_default _ _ Hn).
    unfold py_in, ret. rewrite Hc, Ep. cbn [default from_option id].
    unfold field in *.
    rewrite !print_label by reflexivity. rewrite O1. cbv iota.
    rewrite !print_label by reflexivity. rewrite O2. cbv iota.
    cbn [environ stdout unlines].
    destruct x; try discriminate;
      repeat (rewrite <- app_assoc; cbn [app]); reflexivity.
  - unfold address_str in Hn. simpl in Hn. inversion Hn; subst. discriminate.
Qed.

Lemma main_parsed_run fs urlopen w w1 payload :
  load_dotenv fs (lit ".env") w = (Ret tt, w1) ->
  urlopen (build_request (api_key w1)) 60 = Parsed payload ->
  main fs urlopen w
  = bind (get payload (lit "data") (JList []))
      (fun data => bind (py_iter data) (fun items => scan items)) w1.
Proof.
  intros Hl Hn. now rewrite (main_load_returned _ _ _ _ Hl), Hn.
Qed.


End MainEdges.


Lemma bad_property_prints_two_lines_witness :
  scan (H := sample_repr)
    [ JDict [ (lit "listingId", JInt 42);
              (lit "listing",
               JDict [ (lit "address",
                        JDict [ (lit "unparsedAddress",
                                 JStr (lit "53 Bridge Street")) ]);
                       (lit "property", JNone) ]) ];
      example_record ]
    empty_world
  = (Exc AttributeError,
     World ∅ (unlines [ lit "listingId 42"; lit "price None" ])).
Proof.
  apply (@bad_property_prints_two_lines sample_repr
           [ (lit "listingId", JInt 42);
             (lit "listing",
              JDict [ (lit "address",
                       JDict [ (lit "unparsedAddress",
                                JStr (lit "53 Bridge Street")) ]);
                      (lit "property", JNone) ]) ]
           [ (lit "address",
              JDict [ (lit "unparsedAddress", JStr (lit "53 Bridge Street")) ]);
             (lit "property", JNone) ]
           (lit "53 Bridge Street") JNone [example_record] empty_world);
    reflexivity.
Defined.




(** ** [bytes.decode] with [errors='ignore']: what it keeps *)

Lemma utf8_encode_char_high c :
  is_scalar c = true -> 128 <= c ->
  Forall (fun b => 128 <= bv b) (utf8_encode_char c).
Proof.
  intros Hc Hhigh. apply is_scalar_range in Hc. unfold utf8_encode_char.
  decide_tests.
  destruct (c <? 2048) eqn:E2; [|destruct (c <? 65536) eqn:E3]; bool_facts;
    repeat constructor; rewrite bv_byte_of by lia_dm; lia_dm.
Qed.

Lemma filter_high_bytes l :
  Forall (fun b => 128 <= bv b) l ->
  List.filter (fun b => bv b <? 128) l = [].
Proof.
  induction 1 as [|b l Hb _ IH]; [reflexivity |].
  simpl. rewrite (proj2 (Z.ltb_ge (bv b) 128)) by lia. exact IH.
Qed.

(** X17. Whatever the bytes, the decoded text is made of Unicode scalar
    values only: no surrogate and nothing above U+10FFFF is ever
    produced, so that text can be encoded again, and decoding that
    gives the same text. *)
Theorem utf8_decode_ignore_scalars bs :
  forallb is_scalar (utf8_decode_ignore bs) = true
  /\ utf8_decode_ignore (utf8_encode (utf8_decode_ignore bs))
     = utf8_decode_ignore bs.
Proof.
  assert (Hs : forallb is_scalar (utf8_decode_ignore bs) = true).
  { apply (utf8_decode_ignore_steps
             (fun _ out => forallb is_scalar out = true)).
    - reflexivity.
    - intros _ t _ _ Ht. exact Ht.
    - intros c t Hc Ht. simpl. now rewrite Hc. }
  split; [exact Hs | now apply utf8_decode_ignore_encode].
Qed.

(** X18. The ASCII part of a body is never touched: the characters below
    128 of the decoded text are the bytes below 128 of the input, all of
    them and in their order. *)
Theorem utf8_decode_ignore_keeps_ascii bs :
  List.filter (fun c => c <? 128) (utf8_decode_ignore bs)
  = List.map bv (List.filter (fun b => bv b <? 128) bs).
Proof.
  apply (utf8_decode_ignore_steps
           (fun bs out =>
              List.filter (fun c => c <? 128) out
              = List.map bv (List.filter (fun b => bv b <? 128) bs))).
  - reflexivity.
  - intros dropped t _ Hhigh Ht.
    now rewrite List.filter_app, (filter_high_bytes _ Hhigh).
  - intros c t Hc Ht. rewrite List.filter_app, List.map_app. cbn [List.filter].
    destruct (c <? 128) eqn:E.
    + apply Z.ltb_lt in E. apply is_scalar_range in Hc.
      unfold utf8_encode_char. rewrite (proj2 (Z.ltb_lt c 128)) by lia.
      cbn [List.filter]. rewrite bv_byte_of by lia.
      rewrite (proj2 (Z.ltb_lt c 128)) by lia. simpl.
      rewrite bv_byte_of by lia. now rewrite Ht.
    + apply Z.ltb_ge in E.
      now rewrite (filter_high_bytes _ (utf8_encode_char_high c Hc E)).
Qed.

(** X19. Decoding only leaves bytes out: the decoded text, encoded
    again, is the input with some of its bytes removed, none added,
    changed or moved. *)
Theorem utf8_decode_ignore_only_drops bs :
  sublist (utf8_encode (utf8_decode_ignore bs)) bs.
Proof.
  apply (utf8_decode_ignore_steps (fun bs out => sublist (utf8_encode out) bs)).
  - constructor.
  - intros dropped t _ _ Ht. now apply sublist_inserts_l.
  - intros c t _ Ht. unfold utf8_encode in *. cbn [flat_map].
    apply sublist_app; [reflexivity | exact Ht].
Qed.


(** ** [main]: every way the success path can end *)

Section MainOutcomes.
Context `{PyRepr}.

(** A run of [print]s either gets through, with one line for each, or
    stops at the first value the output refuses, after the label and the
    space of that line. *)
Lemma print_lines_outcome pairs k w :
  Forall (fun pv => forallb is_scalar (fst pv) = true) pairs ->
  print_lines pairs k w
  = k (World (environ w) (stdout w ++ unlines (List.map line_of pairs)))
  \/ (exists n lab v,
        pairs !! n = Some (lab, v)
        /\ print_lines pairs k w
           = (Exc UnicodeEncodeError,
              World (environ w)
                (stdout w
                 ++ unlines (List.map line_of (take n pairs)) ++ lab ++ [32]))).
Proof.
  intros Hlab. revert w.
  induction Hlab as [|[lab v] pairs Hl _ IH]; intros w.
  - left. cbn [print_lines List.map unlines]. rewrite app_nil_r. now destruct w.
  - cbn [print_lines]. unfold bind. rewrite (print_label lab v w Hl).
    destruct (forallb is_scalar (str v)).
    + destruct (IH (World (environ w) (stdout w ++ unlines [lab ++ 32 :: str v])))
        as [Hk | (n & lab' & v' & Hn & Hk)]; cbn [environ stdout] in Hk.
      * left. rewrite Hk. cbn [List.map unlines].
        change (line_of (lab, v)) with (lab ++ 32 :: str v).
        repeat (rewrite <- app_assoc; cbn [app]). reflexivity.
      * right. exists (S n), lab', v'. split; [exact Hn |].
        rewrite Hk. cbn [take List.map unlines].
        change (line_of (lab, v)) with (lab ++ 32 :: str v).
        repeat (rewrite <- app_assoc; cbn [app]). reflexivity.
    + right. exists 0%nat, lab, v. split; [reflexivity |].
      cbn [take List.map unlines app]. reflexivity.
Qed.

Ltac labelled_lines :=
  unfold labelled; simpl; repeat (constructor; [reflexivity |]); constructor.

(** The six [print]s of a report: they get through, or stop in the
    middle of one of the six lines. *)
Lemma report_outcome v1 v2 v3 v4 v5 v6 w :
  exists o out,
    scan_shape o out
    /\ print_lines
         [ (lit "listingId", v1); (lit "price", v2); (lit "beds", v3);
           (lit "baths", v4); (lit "sqft", v5) ]
         (print [JStr (lit "fullAddress"); v6]) w
       = (o, World (environ w) (stdout w ++ out)).
Proof.
  pose (five := [ (lit "listingId", v1); (lit "price", v2); (lit "beds", v3);
                  (lit "baths", v4); (lit "sqft", v5) ]).
  fold five.
  destruct (print_lines_outcome five
              (print [JStr (lit "fullAddress"); v6]) w)
    as [Hk | (n & lab & v & Hn & Hk)].
  - repeat constructor.
  - rewrite Hk, print_label by reflexivity. cbn [environ stdout].
    destruct (forallb is_scalar (str v6)).
    + exists (Ret tt), (unlines (List.map line_of (five ++ [(lit "fullAddress", v6)]))).
      split.
      * right; left. eexists. split; [reflexivity |]. split; [reflexivity |].
        split; [reflexivity | labelled_lines].
      * rewrite <- app_assoc, List.map_app, unlines_app. reflexivity.
    + exists (Exc UnicodeEncodeError),
        (unlines (List.map line_of five) ++ lit "fullAddress ").
      split.
      * do 4 right. exists (List.map line_of five), (lit "fullAddress ").
        split; [reflexivity |]. split; [reflexivity |].
        split; [reflexivity | labelled_lines].
      * rewrite <- !app_assoc. reflexivity.
  - rewrite Hk. exists (Exc UnicodeEncodeError). eexists. split; [|reflexivity].
    do 4 right. exists (List.map line_of (take n five)), (lab ++ [32]).
    split; [reflexivity |]. split; [reflexivity |].
    unfold five in *.
    destruct n as [|[|[|[|[|n]]]]]; cbn in Hn; inversion Hn; subst;
      (split; [reflexivity | labelled_lines]).
Qed.

(** The two [print]s before a [property] that is no object. *)
Lemma cut_report_outcome v1 v2 w :
  exists o out,
    scan_shape o out
    /\ print_lines [ (lit "listingId", v1); (lit "price", v2) ]
         (raise AttributeError) w
       = (o, World (environ w) (stdout w ++ out)).
Proof.
  pose (two := [ (lit "listingId", v1); (lit "price", v2) ]).
  fold two.
  destruct (print_lines_outcome two (raise AttributeError) w)
    as [Hk | (n & lab & v & Hn & Hk)].
  - repeat constructor.
  - rewrite Hk. exists (Exc AttributeError), (unlines (List.map line_of two)).
    split; [|reflexivity].
    do 3 right; left. eexists. split; [reflexivity |]. split; [reflexivity |].
    split; [reflexivity | labelled_lines].
  - rewrite Hk. exists (Exc UnicodeEncodeError). eexists. split; [|reflexivity].
    do 4 right. exists (List.map line_of (take n two)), (lab ++ [32]).
    split; [reflexivity |]. split; [reflexivity |].
    unfold two in *.
    destruct n as [|[|n]]; cbn in Hn; inversion Hn; subst;
      (split; [reflexivity | labelled_lines]).
Qed.

Ltac stops_silently e w :=
  right; exists (Exc e), []; split;
  [ right; right; left; split; [first [now left | now right] | reflexivity]
  | rewrite app_nil_r; now destruct w ].

Ltac reports d l ad w :=
  right;
  let p := fresh "p" in
  match goal with
  | |- context [default (JDict []) (assoc (lit "property") l)] =>
      destruct (default (JDict []) (assoc (lit "property") l)) as [| | | | | |p]
  end;
  [ exact (cut_report_outcome (default JNone (assoc (lit "listingId") d))
             (default JNone (assoc (lit "listPriceLow") l)) w) ..
  | exact (report_outcome (default JNone (assoc (lit "listingId") d))
             (default JNone (assoc (lit "listPriceLow") l))
             (default JNone (assoc (lit "bedroomsTotal") p))
             (default JNone (assoc (lit "bathroomsTotal") p))
             (default JNone (assoc (lit "livingArea") p))
             (default JNone (assoc (lit "unparsedAddress") ad)) w) ].

Lemma scan_record_outcome r rest w :
  scan (r :: rest) w = scan rest w
  \/ (exists o out,
        scan_shape o out
        /\ scan (r :: rest) w = (o, World (environ w) (stdout w ++ out))).
Proof.
  cbn [scan]. unfold bind, get, ret, raise.
  destruct r as [| | | | | |d]; try stops_silently AttributeError w.
  destruct (default (JDict []) (assoc (lit "listing") d)) as [| | | | | |l];
    try stops_silently AttributeError w.
  destruct (default (JDict []) (assoc (lit "address") l)) as [| | | | | |ad];
    try stops_silently AttributeError w.
  unfold py_in, ret, raise.
  destruct (default (JStr []) (assoc (lit "unparsedAddress") ad))
    as [| | | |s|li|dd];
    try stops_silently TypeError w.
  - destruct (contains TARGET s); [reports d l ad w | now left].
  - destruct (existsb _ li); [reports d l ad w | now left].
  - destruct (existsb _ dd); [reports d l ad w | now left].
Qed.

Lemma scan_outcomes items w :
  exists o out,
    scan_shape o out /\ scan items w = (o, World (environ w) (stdout w ++ out)).
Proof.
  induction items as [|r items IH].
  - exists (Ret tt), (unlines [lit "not found"]).
    split; [now left | apply print_not_found].
  - destruct (scan_record_outcome r items w) as [Hskip | Hstop].
    + rewrite Hskip. exact IH.
    + exact Hstop.
Qed.

(** X20. On the success path [main] ends in one of five ways, whatever
    the response holds: it returns after the one line [not found]; it
    returns after the six [print]s of a report; it raises
    [AttributeError] or [TypeError] having printed nothing; it raises
    [AttributeError] after the first two [print]s of a report; or it
    raises [UnicodeEncodeError] in the middle of a [print] of a report,
    after its label and the space, when the output refuses the value.
    What each [print] of a report writes begins with its label, in the
    order of the labels, and ends with a line feed, so that [not found]
    never comes with a report. *)
Theorem main_success_outcomes fs urlopen w w1 payload :
  load_dotenv fs (lit ".env") w = (Ret tt, w1) ->
  urlopen (build_request (api_key w1)) 60 = Parsed payload ->
  exists o out,
    main fs urlopen w = (o, World (environ w1) (stdout w ++ out))
    /\ scan_shape o out.
Proof.
  intros Hl Hn. rewrite (main_parsed_run _ _ _ _ _ Hl Hn).
  apply load_dotenv_keeps in Hl as [<- _].
  assert (Hquiet : forall e, e = AttributeError \/ e = TypeError ->
            exists o out,
              (Exc e, w1) = (o, World (environ w1) (stdout w1 ++ out))
              /\ scan_shape o out).
  { intros e He. exists (Exc e), []. split.
    - rewrite app_nil_r. now destruct w1.
    - right. right. left. split; [|reflexivity]. destruct He as [-> | ->]; tauto. }
  unfold bind, get, ret, raise.
  destruct payload as [| | | | | |p]; try (apply Hquiet; now left).
  unfold py_iter, ret, raise.
  destruct (default (JList []) (assoc (lit "data") p)) as [| | | |s|li|dd];
    try (apply Hquiet; now right);
    match goal with
    | |- context [scan ?items w1] =>
        destruct (scan_outcomes items w1) as (o & out & Hs & Ho);
        exists o, out; split; [exact Ho | exact Hs]
    end.
Qed.

End MainOutcomes.

Lemma main_success_outcomes_witness :
  exists o out,
    main (H := sample_repr) no_files (always example_payload) empty_world
    = (o, World (environ empty_world) (stdout empty_world ++ out))
    /\ scan_shape o out.
Proof.
  apply (@main_success_outcomes sample_repr no_files (always example_payload)
           empty_world empty_world example_payload); reflexivity.
Defined.

